(** * PipelineBase: in-order retrieval over out-of-order completions

    A shallow embedding of [demos/common/processing/pipeline_base.cpp]:
    the asynchronous request pipeline that hands inference requests to a
    bounded pool, collects the results from completion callbacks in
    whatever order they finish, and lets the caller take them back in
    submission order.

    Every member function of [PipelineBase] runs its body under the one
    mutex [mtx]; so does the body of the completion callback.  Each of
    them is therefore one atomic transition of the object's state, and the
    interleavings of the caller's thread with the executor's callback
    threads are the sequences of such transitions. *)

From Stdlib Require Import ZArith Lia List String.
From stdpp Require Import base option list gmap strings.

Local Open Scope Z_scope.

(** ** Machine integers *)

Definition INT64_MAX : Z := 2 ^ 63 - 1.

(** Two's complement reduction of a mathematical integer to [int64_t]. *)
Definition wrap_int64 (x : Z) : Z := (x + 2 ^ 63) mod 2 ^ 64 - 2 ^ 63.

(** The cast [(uint32_t)] applied to a [size_t]. *)
Definition cast_uint32 (x : Z) : Z := x mod 2 ^ 32.

(** [id++; if (id < 0) id = 0;] as written twice in the source, for
    [inputFrameId] and for [outputFrameId]. *)
Definition nextFrameId (id : Z) : Z :=
  let id1 := wrap_int64 (id + 1) in
  if id1 <? 0 then 0 else id1.

(** ** Clock

    [std::chrono::steady_clock] readings and durations are counted in
    ticks of one nanosecond; [time_since_epoch().count()] of a reading is
    the reading itself. *)

Abbreviation time_point := Z (only parsing).
Abbreviation duration := Z (only parsing).

(** [std::chrono::duration_cast<std::chrono::milliseconds>(d).count()]:
    truncation toward zero. *)
Definition duration_cast_milliseconds (d : duration) : Z :=
  Z.quot d 1000000.

(** ** Exceptions *)

(** A captured exception ([std::exception_ptr] that is not [nullptr]),
    identified by the exception object it refers to. *)
Inductive exception_ptr : Type :=
  | ExceptionPtr (object : nat).

#[global] Instance exception_ptr_eq_dec : EqDecision exception_ptr.
Proof. solve_decision. Defined.

(** What a member function can throw to its caller. *)
Inductive thrown : Type :=
  | invalid_argument (what : string)
  | rethrow_exception (e : exception_ptr).

(** ** Results *)

(** The copied output blob ([TBlob<float>]); its elements are kept as raw
    words, the pipeline never looks inside. *)
Inductive Blob : Type :=
  | TBlob (data : list Z).

Module RequestResult.
(** Modelled from the spec: the declaration of [RequestResult] is in
    [pipeline_base.h]; its fields are the three that the callback
    assigns, and a default-constructed value is the empty result, with
    no output blob.  Which frame id and start time the empty result
    carries plays no role below. *)
Record t : Type := mk {
  frameId : Z;
  output : option Blob;
  startTime : time_point
}.

(** [RequestResult()] *)
Definition empty : t := {| frameId := -1; output := None; startTime := 0 |}.

Definition IsEmpty (r : t) : bool :=
  match output r with None => true | Some _ => false end.
End RequestResult.

(** ** Performance counters *)

(** [perfInfo.FPS] is a [double]: it is kept as the two operands of the
    division that produced it, [framesCount*1000.0] and the elapsed
    milliseconds, so that no rounding is modelled. *)
Inductive fps_value : Type :=
  | FpsUnset
  | FpsQuotient (framesTimes1000 : Z) (elapsedMs : Z).

Module PerformanceInfo.
(** Modelled from the spec: the declaration of [PerformanceInfo] is in
    [pipeline_base.h]; the fields are the five that the source reads
    and writes, all zero in a new pipeline.  The frame counter and the
    latency sum are kept as integers without a bound; the in-use count
    is the [uint32_t] that the cast in [submitRequest] produces. *)
Record t : Type := mk {
  framesCount : Z;
  latencySum : duration;
  startTime : time_point;
  numRequestsInUse : Z;
  FPS : fps_value
}.

Definition zero : t :=
  {| framesCount := 0; latencySum := 0; startTime := 0;
     numRequestsInUse := 0; FPS := FpsUnset |}.

Definition with_numRequestsInUse (n : Z) (i : t) : t :=
  {| framesCount := framesCount i; latencySum := latencySum i;
     startTime := startTime i; numRequestsInUse := n; FPS := FPS i |}.

Definition with_startTime (s : time_point) (i : t) : t :=
  {| framesCount := framesCount i; latencySum := latencySum i;
     startTime := s; numRequestsInUse := numRequestsInUse i; FPS := FPS i |}.
End PerformanceInfo.

(** ** The pool of requests *)

Inductive SlotState : Type := Idle | InUse.

#[global] Instance SlotState_eq_dec : EqDecision SlotState.
Proof. solve_decision. Defined.

Module RequestsPool.
(** Modelled from the spec: [RequestsPool] is declared and defined
    outside this source file.  A pool is a fixed array of slots, each
    Idle or InUse; a request is named by its index. *)
Abbreviation t := (list SlotState) (only parsing).

Definition create (maxAsyncRequests : nat) : t := replicate maxAsyncRequests Idle.

(** Modelled from the spec: [inUseCount()], the number of InUse slots. *)
Definition getInUseRequestsCount (pool : t) : nat :=
  length (filter (λ s, s = InUse) pool).

(** Modelled from the spec: [release(slot)], marks a slot Idle. *)
Definition setRequestIdle (request : nat) (pool : t) : t :=
  <[request := Idle]> pool.

(** Modelled from the spec: [acquireIdleOrNull()], returns an idle slot
    and marks it InUse, or signals that none is available. *)
Fixpoint getIdleRequest (pool : t) : option nat * t :=
  match pool with
  | [] => (None, [])
  | Idle :: rest => (Some 0%nat, InUse :: rest)
  | InUse :: rest =>
      let '(r, rest') := getIdleRequest rest in (S <$> r, InUse :: rest')
  end.
End RequestsPool.

(** ** The pipeline object *)

(** What the lambda passed to [SetCompletionCallback] captures by value
    ([this] apart). *)
Record CompletionCallback : Type := mkCallback {
  frameStartTime : time_point;
  frameID : Z;
  request : nat
}.

(** The data members of [PipelineBase] that the source uses.  [mtx] and
    [condVar] have no state of their own here: the mutex is what makes
    each operation below one transition. *)
Record PipelineBase : Type := mkPipeline {
  requestsPool : RequestsPool.t;
  completedRequestResults : gmap Z RequestResult.t;
  outputName : string;
  inputFrameId : Z;
  outputFrameId : Z;
  callbackException : option exception_ptr;
  perfInfo : PerformanceInfo.t
}.

Definition with_requestsPool (x : RequestsPool.t) (p : PipelineBase) : PipelineBase :=
  mkPipeline x (completedRequestResults p) (outputName p) (inputFrameId p)
    (outputFrameId p) (callbackException p) (perfInfo p).

Definition with_completedRequestResults (x : gmap Z RequestResult.t) (p : PipelineBase)
  : PipelineBase :=
  mkPipeline (requestsPool p) x (outputName p) (inputFrameId p)
    (outputFrameId p) (callbackException p) (perfInfo p).

Definition with_inputFrameId (x : Z) (p : PipelineBase) : PipelineBase :=
  mkPipeline (requestsPool p) (completedRequestResults p) (outputName p) x
    (outputFrameId p) (callbackException p) (perfInfo p).

Definition with_outputFrameId (x : Z) (p : PipelineBase) : PipelineBase :=
  mkPipeline (requestsPool p) (completedRequestResults p) (outputName p)
    (inputFrameId p) x (callbackException p) (perfInfo p).

Definition with_callbackException (x : option exception_ptr) (p : PipelineBase)
  : PipelineBase :=
  mkPipeline (requestsPool p) (completedRequestResults p) (outputName p)
    (inputFrameId p) (outputFrameId p) x (perfInfo p).

Definition with_perfInfo (x : PerformanceInfo.t) (p : PipelineBase) : PipelineBase :=
  mkPipeline (requestsPool p) (completedRequestResults p) (outputName p)
    (inputFrameId p) (outputFrameId p) (callbackException p) x.

(** [PipelineBase::PipelineBase()] followed by what [init] leaves behind:
    the pool of [maxAsyncRequests] requests, and the output name that
    [PrepareInputsOutputs] of the derived class has set (or not). *)
Definition PipelineBase_init (name : string) (maxAsyncRequests : nat) : PipelineBase :=
  {| requestsPool := RequestsPool.create maxAsyncRequests;
     completedRequestResults := ∅;
     outputName := name;
     inputFrameId := 0;
     outputFrameId := 0;
     callbackException := None;
     perfInfo := PerformanceInfo.zero |}.

(** *** waitForData *)

(** The predicate handed to [condVar.wait]. *)
Definition waitPredicate (p : PipelineBase) : bool :=
  bool_decide (callbackException p ≠ None)
  || negb (RequestsPool.getInUseRequestsCount (requestsPool p) =? 0)%nat
  || negb (bool_decide (completedRequestResults p = ∅)).

Inductive WaitOutcome : Type :=
  | WaitBlocked                 (* the predicate is false: the thread sleeps *)
  | WaitReturned
  | WaitThrew (t : thrown).

Definition waitForData (p : PipelineBase) : WaitOutcome :=
  if waitPredicate p then
    match callbackException p with
    | Some e => WaitThrew (rethrow_exception e)
    | None => WaitReturned
    end
  else WaitBlocked.

(** *** submitRequest *)

(** [unordered_map::emplace]: inserts only when the key is absent. *)
Definition emplace (k : Z) (v : RequestResult.t) (m : gmap Z RequestResult.t)
  : gmap Z RequestResult.t :=
  match m !! k with
  | Some _ => m
  | None => <[k := v]> m
  end.

(** The caller's half of [submitRequest]: everything but the body of the
    lambda.  [now] is the reading of [steady_clock::now()].  On success
    the frame id is returned together with the closure that was attached
    to the request and started.  The two calls into the executor,
    [SetCompletionCallback] and [StartAsync], are taken to return: what
    they do when they throw is the executor's, not this file's. *)
Definition submitRequest (p : PipelineBase) (request : nat) (now : time_point)
  : PipelineBase * (thrown + Z * CompletionCallback) :=
  let p :=
    with_perfInfo
      (PerformanceInfo.with_numRequestsInUse
         (cast_uint32 (Z.of_nat (RequestsPool.getInUseRequestsCount (requestsPool p))))
         (perfInfo p)) p in
  if String.eqb (outputName p) EmptyString then
    (p, inl (invalid_argument "outputName values is not set."))
  else
    let frameStartTime := now in
    let p :=
      if PerformanceInfo.startTime (perfInfo p) =? 0
      then with_perfInfo (PerformanceInfo.with_startTime frameStartTime (perfInfo p)) p
      else p in
    let frameID := inputFrameId p in
    let callback := mkCallback frameStartTime frameID request in
    let p := with_inputFrameId (wrap_int64 (inputFrameId p + 1)) p in
    let p := if inputFrameId p <? 0 then with_inputFrameId 0 p else p in
    (p, inr (frameID, callback)).

(** The body of the lambda, run by the executor when the request is done.
    [extracted] is what the copy of the output blob, the [make_shared] of
    the [TBlob<float>] behind [request->GetBlob(outputName)], comes to:
    the new blob, or the exception it threw. *)
Definition completionCallback (cb : CompletionCallback)
    (extracted : exception_ptr + Blob) (p : PipelineBase) : PipelineBase :=
  match extracted with
  | inr blob =>
      let result :=
        {| RequestResult.frameId := frameID cb;
           RequestResult.output := Some blob;
           RequestResult.startTime := frameStartTime cb |} in
      let p :=
        with_completedRequestResults
          (emplace (frameID cb) result (completedRequestResults p)) p in
      with_requestsPool (RequestsPool.setRequestIdle (request cb) (requestsPool p)) p
  | inl e =>
      match callbackException p with
      | Some _ => p
      | None => with_callbackException (Some e) p
      end
  end.

(** *** getResult *)

Definition getResult (p : PipelineBase) (now : time_point)
  : RequestResult.t * PipelineBase :=
  match completedRequestResults p !! outputFrameId p with
  | Some retVal =>
      let p :=
        with_completedRequestResults
          (delete (outputFrameId p) (completedRequestResults p)) p in
      let p := with_outputFrameId (wrap_int64 (outputFrameId p + 1)) p in
      let p := if outputFrameId p <? 0 then with_outputFrameId 0 p else p in
      let latencySum :=
        PerformanceInfo.latencySum (perfInfo p) + (now - RequestResult.startTime retVal) in
      let framesCount := PerformanceInfo.framesCount (perfInfo p) + 1 in
      let FPS :=
        FpsQuotient (framesCount * 1000)
          (duration_cast_milliseconds (now - PerformanceInfo.startTime (perfInfo p))) in
      let p :=
        with_perfInfo
          {| PerformanceInfo.framesCount := framesCount;
             PerformanceInfo.latencySum := latencySum;
             PerformanceInfo.startTime := PerformanceInfo.startTime (perfInfo p);
             PerformanceInfo.numRequestsInUse :=
               PerformanceInfo.numRequestsInUse (perfInfo p);
             PerformanceInfo.FPS := FPS |} p in
      (retVal, p)
  | None => (RequestResult.empty, p)
  end.


(** ** Sessions: the pipeline together with its executor

    The executor owns the requests.  [started] holds the requests on which
    [StartAsync] has been called and whose completion callback has not run
    yet, each with the closure that [SetCompletionCallback] put on it. *)
Record Session : Type := mkSession {
  pipeline : PipelineBase;
  started : gmap nat CompletionCallback
}.

Inductive Event : Type :=
  | GetIdleRequest                       (* the caller takes a request from the pool *)
  | SubmitRequest (request : nat) (now : time_point)
  | Completion (request : nat) (extracted : exception_ptr + Blob)
  | WaitForData
  | GetResult (now : time_point).

Inductive Observation : Type :=
  | Acquired (r : option nat)
  | Submitted (frameID : Z)
  | Threw (t : thrown)
  | CallbackRan
  | NothingToComplete
  | Blocked
  | Returned
  | Result (r : RequestResult.t).

Definition step (s : Session) (ev : Event) : Session * Observation :=
  match ev with
  | GetIdleRequest =>
      let '(r, pool) := RequestsPool.getIdleRequest (requestsPool (pipeline s)) in
      (mkSession (with_requestsPool pool (pipeline s)) (started s), Acquired r)
  | SubmitRequest request now =>
      match submitRequest (pipeline s) request now with
      | (p, inl t) => (mkSession p (started s), Threw t)
      | (p, inr (id, cb)) => (mkSession p (<[request := cb]> (started s)), Submitted id)
      end
  | Completion request extracted =>
      match started s !! request with
      | Some cb =>
          (mkSession (completionCallback cb extracted (pipeline s))
             (delete request (started s)), CallbackRan)
      | None => (s, NothingToComplete)
      end
  | WaitForData =>
      (s, match waitForData (pipeline s) with
          | WaitBlocked => Blocked
          | WaitReturned => Returned
          | WaitThrew t => Threw t
          end)
  | GetResult now =>
      let '(r, p) := getResult (pipeline s) now in
      (mkSession p (started s), Result r)
  end.

Fixpoint run (s : Session) (tr : list Event) : Session * list Observation :=
  match tr with
  | [] => (s, [])
  | ev :: tr =>
      let '(s1, o) := step s ev in
      let '(s2, os) := run s1 tr in
      (s2, o :: os)
  end.

Definition Session_init (name : string) (maxAsyncRequests : nat) : Session :=
  mkSession (PipelineBase_init name maxAsyncRequests) ∅.

(** The states a session can be in. *)
Definition reachable (s : Session) : Prop :=
  ∃ name maxAsyncRequests tr, s = (run (Session_init name maxAsyncRequests) tr).1.

(** The non-empty results among what the caller has seen, in the order
    it saw them, each with the clock reading of the [getResult] call that
    returned it. *)
Fixpoint retrievals (tr : list Event) (os : list Observation)
  : list (time_point * RequestResult.t) :=
  match tr, os with
  | GetResult now :: tr, Result r :: os =>
      if RequestResult.IsEmpty r then retrievals tr os else (now, r) :: retrievals tr os
  | _ :: tr, _ :: os => retrievals tr os
  | _, _ => []
  end.

Definition retrieved (tr : list Event) (os : list Observation) : list RequestResult.t :=
  (retrievals tr os).*2.

(** The k-th sequence number of a session, counting from zero: the
    counters run through 0 .. INT64_MAX and start over. *)
Definition sequenceNumber (k : nat) : Z := Z.of_nat k mod 2 ^ 63.

(** ** Notions used in the statements *)

(** The object after a submission that went through. *)
Definition afterSubmit (p : PipelineBase) (now : time_point) : PipelineBase :=
  {| requestsPool := requestsPool p;
     completedRequestResults := completedRequestResults p;
     outputName := outputName p;
     inputFrameId := nextFrameId (inputFrameId p);
     outputFrameId := outputFrameId p;
     callbackException := callbackException p;
     perfInfo :=
       {| PerformanceInfo.framesCount := PerformanceInfo.framesCount (perfInfo p);
          PerformanceInfo.latencySum := PerformanceInfo.latencySum (perfInfo p);
          PerformanceInfo.startTime :=
            if PerformanceInfo.startTime (perfInfo p) =? 0 then now
            else PerformanceInfo.startTime (perfInfo p);
          PerformanceInfo.numRequestsInUse :=
            cast_uint32
              (Z.of_nat (RequestsPool.getInUseRequestsCount (requestsPool p)));
          PerformanceInfo.FPS := PerformanceInfo.FPS (perfInfo p) |} |}.

(** The object after a retrieval that found [retVal] at [outputFrameId]. *)
Definition afterRetrieval (p : PipelineBase) (retVal : RequestResult.t)
    (now : time_point) : PipelineBase :=
  {| requestsPool := requestsPool p;
     completedRequestResults := delete (outputFrameId p) (completedRequestResults p);
     outputName := outputName p;
     inputFrameId := inputFrameId p;
     outputFrameId := nextFrameId (outputFrameId p);
     callbackException := callbackException p;
     perfInfo :=
       {| PerformanceInfo.framesCount := PerformanceInfo.framesCount (perfInfo p) + 1;
          PerformanceInfo.latencySum :=
            PerformanceInfo.latencySum (perfInfo p)
            + (now - RequestResult.startTime retVal);
          PerformanceInfo.startTime := PerformanceInfo.startTime (perfInfo p);
          PerformanceInfo.numRequestsInUse :=
            PerformanceInfo.numRequestsInUse (perfInfo p);
          PerformanceInfo.FPS :=
            FpsQuotient ((PerformanceInfo.framesCount (perfInfo p) + 1) * 1000)
              (duration_cast_milliseconds
                 (now - PerformanceInfo.startTime (perfInfo p))) |} |}.

(** What one transition adds to the caller's list of non-empty results. *)
Definition retrievalOf (ev : Event) (o : Observation)
  : list (time_point * RequestResult.t) :=
  match ev, o with
  | GetResult now, Result r => if RequestResult.IsEmpty r then [] else [(now, r)]
  | _, _ => []
  end.

(** The clock readings of the submissions that went through, in order. *)
Fixpoint submissionTimes (tr : list Event) (os : list Observation) : list time_point :=
  match tr, os with
  | SubmitRequest _ now :: tr, Submitted _ :: os => now :: submissionTimes tr os
  | _ :: tr, _ :: os => submissionTimes tr os
  | _, _ => []
  end.

Definition submissionOf (ev : Event) (o : Observation) : list time_point :=
  match ev, o with
  | SubmitRequest _ now, Submitted _ => [now]
  | _, _ => []
  end.

(** The latency of a retrieval: its clock reading minus the start time
    recorded in the result. *)
Definition latency (x : time_point * RequestResult.t) : duration :=
  x.1 - RequestResult.startTime x.2.

Definition total (l : list Z) : Z := foldr Z.add 0 l.

(** The invariant of the object: both counters stay within
    0 .. INT64_MAX, and every stored result sits under its own frame id
    and carries a blob. *)
Record consistent (p : PipelineBase) : Prop := mkConsistent {
  consistent_inputFrameId : 0 ≤ inputFrameId p ≤ INT64_MAX;
  consistent_outputFrameId : 0 ≤ outputFrameId p ≤ INT64_MAX;
  consistent_results :
    ∀ k r, completedRequestResults p !! k = Some r →
           RequestResult.frameId r = k ∧ RequestResult.IsEmpty r = false
}.

(** A session in which nothing has been submitted yet. *)
Record unstarted (s : Session) : Prop := mkUnstarted {
  unstarted_results : completedRequestResults (pipeline s) = ∅;
  unstarted_started : started s = ∅;
  unstarted_startTime : PerformanceInfo.startTime (perfInfo (pipeline s)) = 0
}.

Definition isSubmitRequest (ev : Event) : bool :=
  match ev with SubmitRequest _ _ => true | _ => false end.

(** How many times a run calls [submitRequest]. *)
Fixpoint submissions (tr : list Event) : nat :=
  match tr with
  | [] => 0
  | ev :: tr => (if isSubmitRequest ev then 1 else 0) + submissions tr
  end.

(** While the submission counter has not started over, the frame ids in
    use are all different: every started request carries its own frame id,
    below [inputFrameId], and no result is stored under it yet; every
    stored result sits below [inputFrameId] too. *)
Record fresh (s : Session) : Prop := mkFresh {
  fresh_started :
    ∀ req cb, started s !! req = Some cb →
              request cb = req
              ∧ frameID cb < inputFrameId (pipeline s)
              ∧ completedRequestResults (pipeline s) !! frameID cb = None;
  fresh_results :
    ∀ k r, completedRequestResults (pipeline s) !! k = Some r →
           k < inputFrameId (pipeline s);
  fresh_distinct :
    ∀ req1 req2 cb1 cb2,
      started s !! req1 = Some cb1 → started s !! req2 = Some cb2 →
      frameID cb1 = frameID cb2 → req1 = req2
}.

(** A frame id that no callback will deposit any more: nothing is stored
    under it, no started request carries it, and it is below
    [inputFrameId]. *)
Record retired (f : Z) (s : Session) : Prop := mkRetired {
  retired_results : completedRequestResults (pipeline s) !! f = None;
  retired_started : ∀ req cb, started s !! req = Some cb → frameID cb ≠ f;
  retired_below : f < inputFrameId (pipeline s)
}.

(** A request left behind by a failed callback: its slot is InUse and
    nothing is started on it.  (Every started request is the one its
    callback captured, so no other callback sets this slot Idle.) *)
Record held (req : nat) (s : Session) : Prop := mkHeld {
  held_slot : requestsPool (pipeline s) !! req = Some InUse;
  held_not_started : started s !! req = None;
  held_keys : ∀ req' cb, started s !! req' = Some cb → request cb = req'
}.

(** A session with a pool of two and five units, whose callbacks run in
    the order 1, 0, 3, 2, 4. *)
Definition outOfOrder : list Event :=
  [GetIdleRequest; SubmitRequest 0 10; GetIdleRequest; SubmitRequest 1 20;
   Completion 1 (inr (TBlob [1])); GetResult 30;
   Completion 0 (inr (TBlob [0])); GetResult 40; GetResult 41;
   GetIdleRequest; SubmitRequest 0 50; GetIdleRequest; SubmitRequest 1 60;
   Completion 1 (inr (TBlob [3])); GetResult 70;
   Completion 0 (inr (TBlob [2])); GetResult 80; GetResult 81;
   GetIdleRequest; SubmitRequest 0 90; GetResult 95;
   Completion 0 (inr (TBlob [4])); GetResult 100].


(** ** Notions used in the further properties *)

(** The session with its stored exception forgotten. *)
Definition withoutException (s : Session) : Session :=
  mkSession (with_callbackException None (pipeline s)) (started s).

(** The clock reading that an event brings along, if it brings one. *)
Definition reading (ev : Event) : option time_point :=
  match ev with
  | SubmitRequest _ now => Some now
  | GetResult now => Some now
  | _ => None
  end.

(** The readings of a run never go back ([steady_clock]), starting from
    a reading [c]. *)
Fixpoint steadyFrom (c : time_point) (tr : list Event) : Prop :=
  match tr with
  | [] => True
  | ev :: tr =>
      match reading ev with
      | Some now => c ≤ now ∧ steadyFrom now tr
      | None => steadyFrom c tr
      end
  end.

(** No start time that the session holds lies after the reading [c]. *)
Record notAhead (c : time_point) (s : Session) : Prop := mkNotAhead {
  notAhead_started :
    ∀ rq cb, started s !! rq = Some cb → frameStartTime cb ≤ c;
  notAhead_results :
    ∀ k r, completedRequestResults (pipeline s) !! k = Some r →
           RequestResult.startTime r ≤ c
}.

(** The session has handed out the frame ids 0 .. length ts - 1, the
    k-th of them at the reading [ts !! k], and every start time it holds
    is the reading of its frame id. *)
Record stamped (ts : list time_point) (s : Session) : Prop := mkStamped {
  stamped_inputFrameId : inputFrameId (pipeline s) = Z.of_nat (length ts);
  stamped_started :
    ∀ rq cb, started s !! rq = Some cb →
             0 ≤ frameID cb ∧ ts !! Z.to_nat (frameID cb) = Some (frameStartTime cb);
  stamped_results :
    ∀ k r, completedRequestResults (pipeline s) !! k = Some r →
           0 ≤ k ∧ ts !! Z.to_nat k = Some (RequestResult.startTime r)
}.

(** Nothing the session holds lies behind [outputFrameId]. *)
Record window (s : Session) : Prop := mkWindow {
  window_counters : outputFrameId (pipeline s) ≤ inputFrameId (pipeline s);
  window_started :
    ∀ rq cb, started s !! rq = Some cb → outputFrameId (pipeline s) ≤ frameID cb;
  window_results :
    ∀ k r, completedRequestResults (pipeline s) !! k = Some r →
           outputFrameId (pipeline s) ≤ k
}.

(** * Properties *)

(** ** The sequence counters *)

Lemma wrap_int64_range x : - 2 ^ 63 ≤ wrap_int64 x ≤ INT64_MAX.
Proof.
  unfold wrap_int64, INT64_MAX.
  pose proof (Z.mod_pos_bound (x + 2 ^ 63) (2 ^ 64) ltac:(lia)). lia.
Qed.

Lemma wrap_int64_small x : - 2 ^ 63 ≤ x ≤ INT64_MAX → wrap_int64 x = x.
Proof.
  unfold wrap_int64, INT64_MAX. intros H.
  rewrite Z.mod_small by lia. lia.
Qed.

Lemma wrap_int64_overflow : wrap_int64 (INT64_MAX + 1) = - 2 ^ 63.
Proof. reflexivity. Qed.

Lemma nextFrameId_range x : 0 ≤ nextFrameId x ≤ INT64_MAX.
Proof.
  unfold nextFrameId. pose proof (wrap_int64_range (x + 1)).
  destruct (Z.ltb_spec (wrap_int64 (x + 1)) 0); unfold INT64_MAX in *; lia.
Qed.

Lemma nextFrameId_spec x :
  0 ≤ x ≤ INT64_MAX →
  nextFrameId x = if x =? INT64_MAX then 0 else x + 1.
Proof.
  intros H. unfold nextFrameId.
  destruct (Z.eqb_spec x INT64_MAX) as [->|Hne].
  - reflexivity.
  - rewrite wrap_int64_small by (unfold INT64_MAX in *; lia).
    destruct (Z.ltb_spec (x + 1) 0); lia.
Qed.

Lemma nextFrameId_mod x :
  0 ≤ x ≤ INT64_MAX → nextFrameId x = (x + 1) mod 2 ^ 63.
Proof.
  intros H. rewrite nextFrameId_spec by done.
  destruct (Z.eqb_spec x INT64_MAX) as [->|Hne].
  - reflexivity.
  - rewrite Z.mod_small; unfold INT64_MAX in *; lia.
Qed.

Lemma nextFrameId_neq x : nextFrameId x ≠ x.
Proof.
  unfold nextFrameId, wrap_int64.
  pose proof (Z.mod_pos_bound (x + 1 + 2 ^ 63) (2 ^ 64) ltac:(lia)) as Hb.
  destruct (Z.ltb_spec ((x + 1 + 2 ^ 63) mod 2 ^ 64 - 2 ^ 63) 0) as [Hneg|Hpos].
  - intros <-. vm_compute in Hneg. discriminate.
  - intros Heq.
    assert (Hx : (x + 1 + 2 ^ 63) mod 2 ^ 64 = x + 2 ^ 63) by lia.
    assert (Hs : 0 ≤ x + 2 ^ 63 < 2 ^ 64) by lia.
    destruct (Z.eq_dec (x + 2 ^ 63) (2 ^ 64 - 1)) as [Hmax|Hmax].
    + replace (x + 1 + 2 ^ 63) with (2 ^ 64) in Hx by lia.
      rewrite Z.mod_same in Hx by lia. lia.
    + rewrite Z.mod_small in Hx by lia. lia.
Qed.

(** ** What each operation does to the object, field by field *)

Lemma submitRequest_configured p request now :
  outputName p ≠ EmptyString →
  submitRequest p request now =
    (afterSubmit p now, inr (inputFrameId p, mkCallback now (inputFrameId p) request)).
Proof.
  intros Hname. unfold submitRequest, afterSubmit, nextFrameId. cbn.
  destruct (String.eqb_spec (outputName p) EmptyString) as [|_]; [done|].
  destruct (PerformanceInfo.startTime (perfInfo p) =? 0); cbn;
    destruct (wrap_int64 (inputFrameId p + 1) <? 0); reflexivity.
Qed.

Lemma submitRequest_unconfigured p request now :
  outputName p = EmptyString →
  submitRequest p request now =
    (with_perfInfo
       (PerformanceInfo.with_numRequestsInUse
          (cast_uint32 (Z.of_nat (RequestsPool.getInUseRequestsCount (requestsPool p))))
          (perfInfo p)) p,
     inl (invalid_argument "outputName values is not set.")).
Proof.
  intros Hname. unfold submitRequest. cbn. rewrite Hname. reflexivity.
Qed.

Lemma submitRequest_succeeds_iff p request now :
  (∃ p' r, submitRequest p request now = (p', inr r)) ↔ outputName p ≠ EmptyString.
Proof.
  split.
  - intros (p' & r & H) Hname.
    rewrite submitRequest_unconfigured in H by done. discriminate.
  - intros Hname. rewrite submitRequest_configured by done. eauto.
Qed.

Lemma getResult_present p now retVal :
  completedRequestResults p !! outputFrameId p = Some retVal →
  getResult p now = (retVal, afterRetrieval p retVal now).
Proof.
  intros Hfind. unfold getResult, afterRetrieval, nextFrameId. rewrite Hfind. cbn.
  destruct (wrap_int64 (outputFrameId p + 1) <? 0); reflexivity.
Qed.

Lemma getResult_absent p now :
  completedRequestResults p !! outputFrameId p = None →
  getResult p now = (RequestResult.empty, p).
Proof. intros Hfind. unfold getResult. by rewrite Hfind. Qed.

Lemma emplace_lookup k v m j :
  emplace k v m !! j =
    match m !! j with
    | Some old => Some old
    | None => if decide (k = j) then Some v else None
    end.
Proof.
  unfold emplace. destruct (m !! k) eqn:Hk.
  - destruct (m !! j) eqn:Hj; [done|]. case_decide; congruence.
  - rewrite lookup_insert. case_decide; subst.
    + by rewrite Hk.
    + by destruct (m !! j).
Qed.

Lemma completionCallback_extracted cb blob p :
  completionCallback cb (inr blob) p =
    {| requestsPool := RequestsPool.setRequestIdle (request cb) (requestsPool p);
       completedRequestResults :=
         emplace (frameID cb)
           (RequestResult.mk (frameID cb) (Some blob) (frameStartTime cb))
           (completedRequestResults p);
       outputName := outputName p;
       inputFrameId := inputFrameId p;
       outputFrameId := outputFrameId p;
       callbackException := callbackException p;
       perfInfo := perfInfo p |}.
Proof. reflexivity. Qed.

Lemma completionCallback_failed cb e p :
  completionCallback cb (inl e) p =
    {| requestsPool := requestsPool p;
       completedRequestResults := completedRequestResults p;
       outputName := outputName p;
       inputFrameId := inputFrameId p;
       outputFrameId := outputFrameId p;
       callbackException :=
         match callbackException p with Some first => Some first | None => Some e end;
       perfInfo := perfInfo p |}.
Proof. cbn. destruct p as [? ? ? ? ? [first|] ?]; reflexivity. Qed.

(** ** Runs *)

Lemma run_cons s ev tr :
  run s (ev :: tr) =
    ((run (step s ev).1 tr).1, (step s ev).2 :: (run (step s ev).1 tr).2).
Proof. cbn. destruct (step s ev) as [s1 o]. cbn. by destruct (run s1 tr). Qed.

Lemma run_app s tr1 tr2 :
  run s (tr1 ++ tr2) =
    ((run (run s tr1).1 tr2).1, (run s tr1).2 ++ (run (run s tr1).1 tr2).2).
Proof.
  revert s. induction tr1 as [|ev tr1 IH]; intros s.
  - cbn. by destruct (run s tr2).
  - rewrite <- app_comm_cons, !run_cons, IH. reflexivity.
Qed.

Lemma run_length s tr : length (run s tr).2 = length tr.
Proof.
  revert s. induction tr as [|ev tr IH]; intros s; [done|].
  rewrite run_cons. cbn. by rewrite IH.
Qed.

(** A property that every transition preserves holds along every run. *)
Lemma run_invariant (P : Session → Prop) :
  (∀ s ev, P s → P (step s ev).1) →
  ∀ tr s, P s → P (run s tr).1.
Proof.
  intros Hstep tr. induction tr as [|ev tr IH]; intros s Hs; [done|].
  rewrite run_cons. cbn. apply IH, Hstep, Hs.
Qed.

Lemma reachable_init name maxAsyncRequests :
  reachable (Session_init name maxAsyncRequests).
Proof. by exists name, maxAsyncRequests, []. Qed.

Lemma reachable_run s tr : reachable s → reachable (run s tr).1.
Proof.
  intros (name & n & tr0 & ->). exists name, n, (tr0 ++ tr).
  by rewrite run_app.
Qed.

Lemma reachable_invariant (P : Session → Prop) :
  (∀ name maxAsyncRequests, P (Session_init name maxAsyncRequests)) →
  (∀ s ev, P s → P (step s ev).1) →
  ∀ s, reachable s → P s.
Proof.
  intros Hinit Hstep s (name & n & tr & ->).
  apply run_invariant; [exact Hstep | apply Hinit].
Qed.

(** What a transition does to the pipeline object, event by event. *)
Lemma step_pipeline s ev :
  pipeline (step s ev).1 =
    match ev with
    | GetIdleRequest =>
        with_requestsPool (RequestsPool.getIdleRequest (requestsPool (pipeline s))).2
          (pipeline s)
    | SubmitRequest request now => (submitRequest (pipeline s) request now).1
    | Completion request extracted =>
        match started s !! request with
        | Some cb => completionCallback cb extracted (pipeline s)
        | None => pipeline s
        end
    | WaitForData => pipeline s
    | GetResult now => (getResult (pipeline s) now).2
    end.
Proof.
  destruct ev as [|request now|request extracted| |now]; cbn.
  - by destruct (RequestsPool.getIdleRequest _).
  - by destruct (submitRequest _ _ _) as [p [t|[id cb]]].
  - by destruct (started s !! request).
  - done.
  - by destruct (getResult _ _).
Qed.

(** ** The invariant of the object *)

Lemma consistent_init name maxAsyncRequests :
  consistent (PipelineBase_init name maxAsyncRequests).
Proof. split; cbn; try (unfold INT64_MAX; lia). intros k r. by rewrite lookup_empty. Qed.

Lemma consistent_submitRequest p request now :
  consistent p → consistent (submitRequest p request now).1.
Proof.
  intros [Hi Ho Hr]. destruct (decide (outputName p = EmptyString)) as [Hname|Hname].
  - rewrite submitRequest_unconfigured by done. by split.
  - rewrite submitRequest_configured by done. split; cbn; try done.
    apply nextFrameId_range.
Qed.

Lemma consistent_completionCallback cb extracted p :
  consistent p → consistent (completionCallback cb extracted p).
Proof.
  intros [Hi Ho Hr]. destruct extracted as [e|blob].
  - rewrite completionCallback_failed. by split.
  - rewrite completionCallback_extracted. split; cbn; try done.
    intros k r. rewrite emplace_lookup.
    destruct (completedRequestResults p !! k) eqn:Hk.
    + intros [= <-]. by apply Hr.
    + case_decide; [|done]. intros [= <-]. by subst.
Qed.

Lemma consistent_getResult p now :
  consistent p → consistent (getResult p now).2.
Proof.
  intros [Hi Ho Hr].
  destruct (completedRequestResults p !! outputFrameId p) as [retVal|] eqn:Hfind.
  - rewrite (getResult_present _ _ _ Hfind). split; cbn; try done.
    + apply nextFrameId_range.
    + intros k r Hk. apply lookup_delete_Some in Hk as [_ Hk]. by apply Hr.
  - rewrite getResult_absent by done. by split.
Qed.

Lemma consistent_step s ev :
  consistent (pipeline s) → consistent (pipeline (step s ev).1).
Proof.
  intros Hs. rewrite step_pipeline.
  destruct ev as [|request now|request extracted| |now].
  - destruct Hs. by split.
  - by apply consistent_submitRequest.
  - destruct (started s !! request); [by apply consistent_completionCallback|done].
  - done.
  - by apply consistent_getResult.
Qed.

Lemma consistent_reachable s : reachable s → consistent (pipeline s).
Proof.
  apply (reachable_invariant (λ s, consistent (pipeline s))).
  - apply consistent_init.
  - apply consistent_step.
Qed.

(** ** Retrieval order *)

Lemma retrievals_cons ev tr o os :
  retrievals (ev :: tr) (o :: os) = retrievalOf ev o ++ retrievals tr os.
Proof.
  destruct ev; try reflexivity.
  destruct o; try reflexivity.
  cbn. by destruct (RequestResult.IsEmpty r).
Qed.

Lemma retrievals_run_cons s ev tr :
  retrievals (ev :: tr) (run s (ev :: tr)).2 =
    retrievalOf ev (step s ev).2 ++ retrievals tr (run (step s ev).1 tr).2.
Proof. rewrite run_cons. cbn [snd]. apply retrievals_cons. Qed.

Lemma retrievals_app tr1 tr2 os1 os2 :
  length tr1 = length os1 →
  retrievals (tr1 ++ tr2) (os1 ++ os2) = retrievals tr1 os1 ++ retrievals tr2 os2.
Proof.
  revert os1. induction tr1 as [|ev tr1 IH]; intros [|o os1] Hlen; try done.
  rewrite <- !app_comm_cons, !retrievals_cons, IH, app_assoc; [done|].
  cbn in Hlen. lia.
Qed.

(** What [getResult] contributes, by the two cases of its lookup. *)
Lemma retrievalOf_getResult s now :
  consistent (pipeline s) →
  retrievalOf (GetResult now) (step s (GetResult now)).2 =
    match completedRequestResults (pipeline s) !! outputFrameId (pipeline s) with
    | Some retVal => [(now, retVal)]
    | None => []
    end.
Proof.
  intros Hs. cbn.
  destruct (completedRequestResults (pipeline s) !! outputFrameId (pipeline s))
    as [retVal|] eqn:Hfind.
  - rewrite (getResult_present _ _ _ Hfind). cbn.
    destruct (consistent_results _ Hs _ _ Hfind) as [_ ->]. done.
  - rewrite getResult_absent by done. reflexivity.
Qed.

Lemma Event_is_getResult ev :
  (∃ now, ev = GetResult now) ∨ (∀ now, ev ≠ GetResult now).
Proof. destruct ev; eauto; by right. Qed.

Lemma retrievalOf_other s ev :
  (∀ now, ev ≠ GetResult now) → retrievalOf ev (step s ev).2 = [].
Proof. destruct ev; try done. intros H. by destruct (H now). Qed.

Lemma step_outputFrameId_other s ev :
  (∀ now, ev ≠ GetResult now) →
  outputFrameId (pipeline (step s ev).1) = outputFrameId (pipeline s).
Proof.
  intros Hev. rewrite step_pipeline.
  destruct ev as [|request now|request extracted| |now]; try done.
  - destruct (decide (outputName (pipeline s) = EmptyString)) as [Hname|Hname].
    + by rewrite submitRequest_unconfigured.
    + by rewrite submitRequest_configured.
  - destruct (started s !! request) as [cb|]; [|done].
    destruct extracted; [by rewrite completionCallback_failed|done].
  - by destruct (Hev now).
Qed.

(** Along a run, the frame ids of the non-empty results count upwards from
    the [outputFrameId] the run started with. *)
Lemma retrieved_frame_ids tr : ∀ s,
  consistent (pipeline s) →
  RequestResult.frameId <$> retrieved tr (run s tr).2 =
    (λ k : nat, (outputFrameId (pipeline s) + Z.of_nat k) mod 2 ^ 63)
      <$> seq 0 (length (retrieved tr (run s tr).2)).
Proof.
  unfold retrieved.
  induction tr as [|ev tr IH]; intros s Hs; [done|].
  rewrite retrievals_run_cons.
  pose proof (consistent_step s ev Hs) as Hs1.
  specialize (IH _ Hs1).
  destruct (Event_is_getResult ev) as [[now ->]|Hev].
  - rewrite retrievalOf_getResult by done.
    destruct (completedRequestResults (pipeline s) !! outputFrameId (pipeline s))
      as [retVal|] eqn:Hfind.
    + cbn [app]. rewrite !fmap_cons. cbn [length seq snd]. rewrite fmap_cons.
      f_equal.
      * destruct (consistent_results _ Hs _ _ Hfind) as [-> _].
        change (Z.of_nat 0) with 0.
        rewrite Z.add_0_r, Z.mod_small; [done|].
        pose proof (consistent_outputFrameId _ Hs). unfold INT64_MAX in *. lia.
      * rewrite IH, step_pipeline, (getResult_present _ _ _ Hfind).
        cbn [snd afterRetrieval outputFrameId].
        rewrite <- (fmap_S_seq 0), <- list_fmap_compose.
        apply list_fmap_ext. intros _ k _. cbn [compose].
        rewrite nextFrameId_mod by apply Hs.
        rewrite Zplus_mod_idemp_l. f_equal. lia.
    + cbn [app]. rewrite IH.
      rewrite step_pipeline, getResult_absent by done. done.
  - rewrite retrievalOf_other by done. cbn [app].
    rewrite IH, step_outputFrameId_other by done. done.
Qed.

(** C1.  For every session, whatever the submissions and whatever the
    order in which the completion callbacks deposit their results, the
    non-empty results that [getResult] returns carry the sequence numbers
    0, 1, 2, ... in this order (counted modulo the wraparound of the
    counter).  Each non-empty result is the one stored under the current
    [outputFrameId] and carries that frame id, and whenever the result for
    the current [outputFrameId] has been deposited, [getResult] returns
    it. *)
Theorem getResult_in_submission_order :
  (∀ name maxAsyncRequests tr,
     let os := (run (Session_init name maxAsyncRequests) tr).2 in
     RequestResult.frameId <$> retrieved tr os =
       sequenceNumber <$> seq 0 (length (retrieved tr os)))
  ∧ (∀ s now r,
       reachable s →
       (getResult (pipeline s) now).1 = r →
       RequestResult.IsEmpty r = false →
       completedRequestResults (pipeline s) !! outputFrameId (pipeline s) = Some r
       ∧ RequestResult.frameId r = outputFrameId (pipeline s))
  ∧ (∀ s now r,
       reachable s →
       completedRequestResults (pipeline s) !! outputFrameId (pipeline s) = Some r →
       (getResult (pipeline s) now).1 = r ∧ RequestResult.IsEmpty r = false).
Proof.
  split; [|split].
  - intros name n tr os. subst os.
    rewrite retrieved_frame_ids by apply consistent_init. done.
  - intros s now r Hs Hr Hnonempty.
    apply consistent_reachable in Hs.
    destruct (completedRequestResults (pipeline s) !! outputFrameId (pipeline s))
      as [retVal|] eqn:Hfind.
    + rewrite (getResult_present _ _ _ Hfind) in Hr. cbn in Hr. subst r.
      split; [done|]. by destruct (consistent_results _ Hs _ _ Hfind).
    + rewrite getResult_absent in Hr by done. cbn in Hr. by subst r.
  - intros s now r Hs Hfind.
    apply consistent_reachable in Hs.
    rewrite (getResult_present _ _ _ Hfind). cbn.
    split; [done|]. by destruct (consistent_results _ Hs _ _ Hfind).
Qed.

Lemma getResult_in_submission_order_witness :
  let s := (run (Session_init "out" 2)
              [GetIdleRequest; SubmitRequest 0 10; GetIdleRequest;
               SubmitRequest 1 20; Completion 1 (inr (TBlob [1]));
               Completion 0 (inr (TBlob [0]))]).1 in
  let r := RequestResult.mk 0 (Some (TBlob [0])) 10 in
  reachable s
  ∧ completedRequestResults (pipeline s) !! outputFrameId (pipeline s) = Some r
  ∧ (getResult (pipeline s) 30).1 = r
  ∧ RequestResult.IsEmpty r = false.
Proof.
  cbv zeta.
  assert (Hs : reachable (run (Session_init "out" 2)
              [GetIdleRequest; SubmitRequest 0 10; GetIdleRequest;
               SubmitRequest 1 20; Completion 1 (inr (TBlob [1]));
               Completion 0 (inr (TBlob [0]))]).1)
    by (apply reachable_run, reachable_init).
  split; [exact Hs|]. split; [reflexivity|].
  exact (proj2 (proj2 getResult_in_submission_order)
           (run (Session_init "out" 2)
              [GetIdleRequest; SubmitRequest 0 10; GetIdleRequest;
               SubmitRequest 1 20; Completion 1 (inr (TBlob [1]));
               Completion 0 (inr (TBlob [0]))]).1
           30 (RequestResult.mk 0 (Some (TBlob [0])) 10) Hs eq_refl).
Defined.

(** ** Submission without an output name *)

(** C2, as stated, does not hold: a session whose output name is unset and
    whose caller holds one request of the pool.  The failing [submitRequest]
    has already stored the pool's in-use count in [perfInfo] when it
    throws, so the state after the call is not the state before it. *)
Lemma submitRequest_unconfigured_changes_perfInfo :
  let s := (run (Session_init EmptyString 1) [GetIdleRequest]).1 in
  let s' := (step s (SubmitRequest 0 1000)).1 in
  outputName (pipeline s) = EmptyString
  ∧ (step s (SubmitRequest 0 1000)).2
      = Threw (invalid_argument "outputName values is not set.")
  ∧ PerformanceInfo.numRequestsInUse (perfInfo (pipeline s)) = 0
  ∧ PerformanceInfo.numRequestsInUse (perfInfo (pipeline s')) = 1
  ∧ s' ≠ s.
Proof.
  cbv zeta. repeat split; try reflexivity.
  intros Heq.
  apply (f_equal (λ x, PerformanceInfo.numRequestsInUse (perfInfo (pipeline x)))) in Heq.
  vm_compute in Heq. discriminate.
Qed.

(** C2, amended.  With the output name unset, [submitRequest] throws
    [invalid_argument]; no callback is attached and nothing is started,
    the pool, the buffer, both sequence counters and the stored exception
    are as before, and so are all performance counters but one:
    [numRequestsInUse] has been set to the pool's current in-use count. *)
Theorem submitRequest_unconfigured_effects s request now :
  outputName (pipeline s) = EmptyString →
  let s' := (step s (SubmitRequest request now)).1 in
  (step s (SubmitRequest request now)).2
    = Threw (invalid_argument "outputName values is not set.")
  ∧ started s' = started s
  ∧ requestsPool (pipeline s') = requestsPool (pipeline s)
  ∧ completedRequestResults (pipeline s') = completedRequestResults (pipeline s)
  ∧ outputName (pipeline s') = outputName (pipeline s)
  ∧ inputFrameId (pipeline s') = inputFrameId (pipeline s)
  ∧ outputFrameId (pipeline s') = outputFrameId (pipeline s)
  ∧ callbackException (pipeline s') = callbackException (pipeline s)
  ∧ PerformanceInfo.framesCount (perfInfo (pipeline s'))
      = PerformanceInfo.framesCount (perfInfo (pipeline s))
  ∧ PerformanceInfo.latencySum (perfInfo (pipeline s'))
      = PerformanceInfo.latencySum (perfInfo (pipeline s))
  ∧ PerformanceInfo.startTime (perfInfo (pipeline s'))
      = PerformanceInfo.startTime (perfInfo (pipeline s))
  ∧ PerformanceInfo.FPS (perfInfo (pipeline s'))
      = PerformanceInfo.FPS (perfInfo (pipeline s))
  ∧ PerformanceInfo.numRequestsInUse (perfInfo (pipeline s'))
      = Z.of_nat (RequestsPool.getInUseRequestsCount (requestsPool (pipeline s)))
          mod 2 ^ 32.
Proof.
  intros Hname. unfold step.
  rewrite submitRequest_unconfigured by done. cbn. done.
Qed.

Lemma submitRequest_unconfigured_effects_witness :
  let s := (run (Session_init EmptyString 1) [GetIdleRequest]).1 in
  outputName (pipeline s) = EmptyString
  ∧ inputFrameId (pipeline (step s (SubmitRequest 0 1000)).1) = inputFrameId (pipeline s)
  ∧ PerformanceInfo.numRequestsInUse
      (perfInfo (pipeline (step s (SubmitRequest 0 1000)).1)) = 1 mod 2 ^ 32.
Proof.
  cbv zeta. split; [reflexivity|].
  pose proof (submitRequest_unconfigured_effects
                (run (Session_init EmptyString 1) [GetIdleRequest]).1 0%nat 1000 eq_refl) as H.
  cbv zeta in H. split; [apply H|].
  destruct H as (_ & _ & _ & _ & _ & _ & _ & _ & _ & _ & _ & _ & H). exact H.
Defined.

(** ** The stored exception *)

Lemma step_callbackException_kept s ev first :
  callbackException (pipeline s) = Some first →
  callbackException (pipeline (step s ev).1) = Some first.
Proof.
  intros Hfirst. rewrite step_pipeline.
  destruct ev as [|request now|request extracted| |now]; try done.
  - destruct (decide (outputName (pipeline s) = EmptyString)) as [Hname|Hname].
    + by rewrite submitRequest_unconfigured.
    + by rewrite submitRequest_configured.
  - destruct (started s !! request) as [cb|]; [|done].
    destruct extracted as [e|blob]; [|done].
    rewrite completionCallback_failed. cbn. by rewrite Hfirst.
  - destruct (completedRequestResults (pipeline s) !! outputFrameId (pipeline s))
      as [retVal|] eqn:Hfind.
    + by rewrite (getResult_present _ _ _ Hfind).
    + by rewrite getResult_absent.
Qed.

Lemma run_callbackException_kept tr : ∀ s first,
  callbackException (pipeline s) = Some first →
  callbackException (pipeline (run s tr).1) = Some first.
Proof.
  intros s first.
  apply (run_invariant (λ s, callbackException (pipeline s) = Some first)).
  intros s0 ev. apply step_callbackException_kept.
Qed.

(** C3.  Only the first fault is kept.  Once an exception is stored, no
    run of the session changes it, whatever fails afterwards; and in a
    session with no exception stored, the exception of the first callback
    that fails is the one that is stored from then on. *)
Theorem first_fault_is_kept :
  (∀ s tr first,
     callbackException (pipeline s) = Some first →
     callbackException (pipeline (run s tr).1) = Some first)
  ∧ (∀ s request cb e tr,
       callbackException (pipeline s) = None →
       started s !! request = Some cb →
       callbackException (pipeline (run s (Completion request (inl e) :: tr)).1)
         = Some e).
Proof.
  split.
  - intros s tr first. apply run_callbackException_kept.
  - intros s request cb e tr Hnone Hcb.
    rewrite run_cons. cbn [fst]. apply run_callbackException_kept.
    rewrite step_pipeline, Hcb, completionCallback_failed. cbn. by rewrite Hnone.
Qed.

Lemma first_fault_is_kept_witness :
  let s := (run (Session_init "out" 2)
              [GetIdleRequest; SubmitRequest 0 10; GetIdleRequest;
               SubmitRequest 1 20]).1 in
  callbackException (pipeline s) = None
  ∧ started s !! 0%nat = Some (mkCallback 10 0 0)
  ∧ callbackException
      (pipeline (run s [Completion 0 (inl (ExceptionPtr 1));
                        Completion 1 (inl (ExceptionPtr 2)); WaitForData]).1)
    = Some (ExceptionPtr 1).
Proof.
  cbv zeta. split; [reflexivity|]. split; [reflexivity|].
  exact (proj2 first_fault_is_kept
           (run (Session_init "out" 2)
              [GetIdleRequest; SubmitRequest 0 10; GetIdleRequest;
               SubmitRequest 1 20]).1
           0%nat (mkCallback 10 0 0) (ExceptionPtr 1)
           [Completion 1 (inl (ExceptionPtr 2)); WaitForData] eq_refl eq_refl).
Defined.

(** ** waitForData *)

Lemma waitPredicate_false p :
  waitPredicate p = false ↔
    callbackException p = None
    ∧ RequestsPool.getInUseRequestsCount (requestsPool p) = 0%nat
    ∧ completedRequestResults p = ∅.
Proof.
  unfold waitPredicate.
  rewrite !orb_false_iff, !negb_false_iff, Nat.eqb_eq, !bool_decide_eq_false,
    bool_decide_eq_true.
  split.
  - intros [[H1 H2] H3]. split; [|done].
    destruct (callbackException p); [by destruct H1|done].
  - intros (H1 & H2 & H3). rewrite H1. split; [split|]; [|done..].
    intros H. by apply H.
Qed.

(** C4.  [waitForData] stays blocked exactly when no exception is stored,
    no request is in use and no result is waiting.  When it is let through
    with an exception stored, it throws that very exception; with none
    stored it returns.  No other operation throws a stored exception:
    a transition whose caller sees a rethrown exception is a
    [waitForData], the exception is the stored one, and the state is
    unchanged. *)
Theorem waitForData_rethrows_stored_exception :
  (∀ p, waitForData p = WaitBlocked ↔
          callbackException p = None
          ∧ RequestsPool.getInUseRequestsCount (requestsPool p) = 0%nat
          ∧ completedRequestResults p = ∅)
  ∧ (∀ p e, callbackException p = Some e →
            waitForData p = WaitThrew (rethrow_exception e))
  ∧ (∀ p, callbackException p = None →
          waitForData p = WaitBlocked ∨ waitForData p = WaitReturned)
  ∧ (∀ s ev s' e,
       step s ev = (s', Threw (rethrow_exception e)) →
       ev = WaitForData ∧ callbackException (pipeline s) = Some e ∧ s' = s).
Proof.
  split; [|split; [|split]].
  - intros p. rewrite <- waitPredicate_false. unfold waitForData.
    destruct (waitPredicate p); [|done].
    by destruct (callbackException p).
  - intros p e He. unfold waitForData, waitPredicate. by rewrite He.
  - intros p Hnone. unfold waitForData. rewrite Hnone.
    destruct (waitPredicate p); auto.
  - intros s ev s' e Hstep.
    destruct ev as [|request now|request extracted| |now]; cbn in Hstep.
    + by destruct (RequestsPool.getIdleRequest _).
    + destruct (decide (outputName (pipeline s) = EmptyString)) as [Hname|Hname].
      * by rewrite submitRequest_unconfigured in Hstep.
      * by rewrite submitRequest_configured in Hstep.
    + by destruct (started s !! request).
    + unfold waitForData in Hstep.
      destruct (waitPredicate (pipeline s)); [|done].
      destruct (callbackException (pipeline s)) as [e'|]; [|done].
      by injection Hstep as <- <-.
    + by destruct (getResult _ _).
Qed.

Lemma waitForData_rethrows_stored_exception_witness :
  let s := (run (Session_init "out" 1)
              [GetIdleRequest; SubmitRequest 0 10;
               Completion 0 (inl (ExceptionPtr 7))]).1 in
  callbackException (pipeline s) = Some (ExceptionPtr 7)
  ∧ waitForData (pipeline s) = WaitThrew (rethrow_exception (ExceptionPtr 7)).
Proof.
  cbv zeta. split; [reflexivity|].
  exact (proj1 (proj2 waitForData_rethrows_stored_exception)
           (pipeline (run (Session_init "out" 1)
              [GetIdleRequest; SubmitRequest 0 10;
               Completion 0 (inl (ExceptionPtr 7))]).1)
           (ExceptionPtr 7) eq_refl).
Defined.

(** ** getResult *)

(** C5.  [getResult] looks up [outputFrameId] and nothing else.  When no
    result is stored under it, the empty result is returned and the
    object is unchanged.  When one is, that result is returned, exactly
    that entry leaves the buffer, [outputFrameId] moves on by one (from
    INT64_MAX to zero), a frame and its latency are added to the
    counters and the throughput is computed anew; everything else stays.
    So [outputFrameId] moves only when a result was retrieved. *)
Theorem getResult_point_lookup p now :
  0 ≤ outputFrameId p ≤ INT64_MAX →
  let r := (getResult p now).1 in
  let p' := (getResult p now).2 in
  (completedRequestResults p !! outputFrameId p = None →
     r = RequestResult.empty ∧ p' = p)
  ∧ (∀ retVal,
       completedRequestResults p !! outputFrameId p = Some retVal →
       r = retVal
       ∧ completedRequestResults p' !! outputFrameId p = None
       ∧ (∀ k, k ≠ outputFrameId p →
               completedRequestResults p' !! k = completedRequestResults p !! k)
       ∧ outputFrameId p'
           = (if outputFrameId p =? INT64_MAX then 0 else outputFrameId p + 1)
       ∧ PerformanceInfo.framesCount (perfInfo p')
           = PerformanceInfo.framesCount (perfInfo p) + 1
       ∧ PerformanceInfo.latencySum (perfInfo p')
           = PerformanceInfo.latencySum (perfInfo p)
             + (now - RequestResult.startTime retVal)
       ∧ PerformanceInfo.FPS (perfInfo p')
           = FpsQuotient ((PerformanceInfo.framesCount (perfInfo p) + 1) * 1000)
               ((now - PerformanceInfo.startTime (perfInfo p)) ÷ 1000000)
       ∧ PerformanceInfo.startTime (perfInfo p')
           = PerformanceInfo.startTime (perfInfo p)
       ∧ PerformanceInfo.numRequestsInUse (perfInfo p')
           = PerformanceInfo.numRequestsInUse (perfInfo p)
       ∧ inputFrameId p' = inputFrameId p
       ∧ requestsPool p' = requestsPool p
       ∧ callbackException p' = callbackException p
       ∧ outputName p' = outputName p)
  ∧ (outputFrameId p' ≠ outputFrameId p ↔
       is_Some (completedRequestResults p !! outputFrameId p)).
Proof.
  intros Hrange r p'. subst r p'.
  destruct (completedRequestResults p !! outputFrameId p) as [stored|] eqn:Hfind.
  - rewrite (getResult_present _ _ _ Hfind). cbn [fst snd].
    split; [done|]. split.
    + intros retVal [= <-]. cbn.
      split; [done|]. split; [apply lookup_delete_eq|].
      split; [intros k Hk; by apply lookup_delete_ne|].
      split; [by apply nextFrameId_spec|]. done.
    + cbn. split; [eauto|]. intros _. apply nextFrameId_neq.
  - rewrite getResult_absent by done. cbn [fst snd].
    split; [done|]. split; [done|].
    split; [done|]. by intros [? ?].
Qed.

Lemma getResult_point_lookup_witness :
  let p :=
    with_completedRequestResults
      {[ 0 := RequestResult.mk 0 (Some (TBlob [7])) 10 ]}
      (PipelineBase_init "out" 1) in
  0 ≤ outputFrameId p ≤ INT64_MAX
  ∧ (outputFrameId (getResult p 25).2 ≠ outputFrameId p ↔
       is_Some (completedRequestResults p !! outputFrameId p)).
Proof.
  cbv zeta.
  assert (H : 0 ≤ 0 ≤ INT64_MAX) by (unfold INT64_MAX; lia).
  split; [exact H|].
  exact (proj2 (proj2 (getResult_point_lookup
    (with_completedRequestResults
       {[ 0 := RequestResult.mk 0 (Some (TBlob [7])) 10 ]}
       (PipelineBase_init "out" 1)) 25 H))).
Defined.

(** ** Frame ids handed out by submitRequest *)

(** C6.  In every state a session can reach, a [submitRequest] that goes
    through returns the [inputFrameId] it found; afterwards
    [inputFrameId] is one more, or zero if it was INT64_MAX, and it is
    never negative.  The next submission that goes through therefore
    returns the next frame id, counted modulo the wraparound. *)
Theorem submitRequest_frame_ids s request now s' id :
  reachable s →
  step s (SubmitRequest request now) = (s', Submitted id) →
  id = inputFrameId (pipeline s)
  ∧ inputFrameId (pipeline s')
      = (if inputFrameId (pipeline s) =? INT64_MAX then 0
         else inputFrameId (pipeline s) + 1)
  ∧ 0 ≤ inputFrameId (pipeline s') ≤ INT64_MAX
  ∧ (∀ request2 now2 s'' id2,
       step s' (SubmitRequest request2 now2) = (s'', Submitted id2) →
       id2 = (id + 1) mod 2 ^ 63).
Proof.
  intros Hs Hstep. apply consistent_reachable in Hs.
  pose proof (consistent_inputFrameId _ Hs) as Hrange.
  cbn in Hstep.
  destruct (decide (outputName (pipeline s) = EmptyString)) as [Hname|Hname].
  { by rewrite submitRequest_unconfigured in Hstep. }
  rewrite submitRequest_configured in Hstep by done.
  injection Hstep as <- <-. cbn.
  split; [done|]. split; [by apply nextFrameId_spec|].
  split; [apply nextFrameId_range|].
  intros request2 now2 s'' id2 Hstep2. cbn in Hstep2.
  rewrite submitRequest_configured in Hstep2 by done.
  injection Hstep2 as _ <-. cbn. by apply nextFrameId_mod.
Qed.

Lemma submitRequest_frame_ids_witness :
  let s := (run (Session_init "out" 2) [GetIdleRequest; SubmitRequest 0 10]).1 in
  let s' := (step s (SubmitRequest 1 20)).1 in
  reachable s
  ∧ step s (SubmitRequest 1 20) = (s', Submitted 1)
  ∧ inputFrameId (pipeline s') = 2.
Proof.
  cbv zeta.
  assert (Hs : reachable (run (Session_init "out" 2)
                            [GetIdleRequest; SubmitRequest 0 10]).1)
    by (apply reachable_run, reachable_init).
  assert (Hstep :
    step (run (Session_init "out" 2) [GetIdleRequest; SubmitRequest 0 10]).1
         (SubmitRequest 1 20)
    = ((step (run (Session_init "out" 2) [GetIdleRequest; SubmitRequest 0 10]).1
          (SubmitRequest 1 20)).1, Submitted 1)) by reflexivity.
  split; [exact Hs|]. split; [exact Hstep|].
  destruct (submitRequest_frame_ids _ _ _ _ _ Hs Hstep) as (_ & H & _).
  rewrite H. reflexivity.
Defined.

(** ** Deposits *)

(** C9.  A deposit never overwrites.  Whatever a completion callback
    does, every entry that was in the buffer is still there with the same
    result; if an entry with the callback's frame id was there, the buffer
    is left exactly as it was and the new result is dropped; otherwise
    the new result is added under that frame id.  After every transition
    the entries of the buffer have pairwise different sequence numbers. *)
Theorem deposit_never_overwrites :
  (∀ cb extracted p k r,
     completedRequestResults p !! k = Some r →
     completedRequestResults (completionCallback cb extracted p) !! k = Some r)
  ∧ (∀ cb blob p old,
       completedRequestResults p !! frameID cb = Some old →
       completedRequestResults (completionCallback cb (inr blob) p)
         = completedRequestResults p)
  ∧ (∀ cb blob p,
       completedRequestResults p !! frameID cb = None →
       completedRequestResults (completionCallback cb (inr blob) p)
         = <[frameID cb :=
               RequestResult.mk (frameID cb) (Some blob) (frameStartTime cb)]>
             (completedRequestResults p))
  ∧ (∀ s ev,
       NoDup (map_to_list (completedRequestResults (pipeline (step s ev).1))).*1).
Proof.
  split; [|split; [|split]].
  - intros cb [e|blob] p k r Hk.
    + by rewrite completionCallback_failed.
    + rewrite completionCallback_extracted. cbn.
      by rewrite emplace_lookup, Hk.
  - intros cb blob p old Hold.
    rewrite completionCallback_extracted. cbn. unfold emplace. by rewrite Hold.
  - intros cb blob p Hnone.
    rewrite completionCallback_extracted. cbn. unfold emplace. by rewrite Hnone.
  - intros s ev. apply NoDup_fst_map_to_list.
Qed.

Lemma deposit_never_overwrites_witness :
  let old := RequestResult.mk 0 (Some (TBlob [1])) 10 in
  let p :=
    with_completedRequestResults {[ 0 := old ]} (PipelineBase_init "out" 1) in
  let cb := mkCallback 99 0 0 in
  completedRequestResults p !! frameID cb = Some old
  ∧ completedRequestResults (completionCallback cb (inr (TBlob [2])) p)
      = completedRequestResults p.
Proof.
  cbv zeta. split; [reflexivity|].
  exact (proj1 (proj2 deposit_never_overwrites) (mkCallback 99 0 0) (TBlob [2])
           (with_completedRequestResults
              {[ 0 := RequestResult.mk 0 (Some (TBlob [1])) 10 ]}
              (PipelineBase_init "out" 1))
           (RequestResult.mk 0 (Some (TBlob [1])) 10) eq_refl).
Defined.

(** ** What fault capture leaves alone *)

Lemma getResult_with_callbackException p fault now :
  getResult (with_callbackException fault p) now =
    ((getResult p now).1, with_callbackException fault (getResult p now).2).
Proof.
  destruct (completedRequestResults p !! outputFrameId p) as [retVal|] eqn:Hfind.
  - rewrite (getResult_present p _ _ Hfind).
    by rewrite (getResult_present (with_callbackException fault p) now retVal).
  - rewrite (getResult_absent p) by done.
    by rewrite (getResult_absent (with_callbackException fault p)).
Qed.

(** C10.  Storing a fault touches the stored exception only: the buffer,
    both sequence counters, the performance counters, the pool and the
    output name are what they were.  [getResult] never throws, and it
    does not look at the stored exception: with a fault pending it still
    returns the result deposited under [outputFrameId], removes it,
    moves on to the next frame id and counts the frame, leaving the
    fault pending; whatever the state, it returns the same result as
    without the fault and changes the rest of the object in the same
    way.  So the [getResult] that follows a failing callback returns
    what it would have returned had the callback not run. *)
Theorem fault_capture_frame :
  (∀ cb e p,
     let p' := completionCallback cb (inl e) p in
     completedRequestResults p' = completedRequestResults p
     ∧ inputFrameId p' = inputFrameId p
     ∧ outputFrameId p' = outputFrameId p
     ∧ perfInfo p' = perfInfo p
     ∧ requestsPool p' = requestsPool p
     ∧ outputName p' = outputName p)
  ∧ (∀ p e now retVal,
       callbackException p = Some e →
       completedRequestResults p !! outputFrameId p = Some retVal →
       (getResult p now).1 = retVal
       ∧ completedRequestResults (getResult p now).2 !! outputFrameId p = None
       ∧ outputFrameId (getResult p now).2 = nextFrameId (outputFrameId p)
       ∧ PerformanceInfo.framesCount (perfInfo (getResult p now).2)
           = PerformanceInfo.framesCount (perfInfo p) + 1
       ∧ callbackException (getResult p now).2 = Some e)
  ∧ (∀ p fault now,
       getResult (with_callbackException fault p) now =
         ((getResult p now).1, with_callbackException fault (getResult p now).2))
  ∧ (∀ s rq cb e now,
       started s !! rq = Some cb →
       (step (step s (Completion rq (inl e))).1 (GetResult now)).2
       = Result (getResult (pipeline s) now).1)
  ∧ (∀ s now t, (step s (GetResult now)).2 ≠ Threw t).
Proof.
  split; [|split; [|split; [|split]]].
  - intros cb e p. rewrite completionCallback_failed. done.
  - intros p e now retVal He Hfind.
    rewrite (getResult_present _ _ _ Hfind). cbn.
    split; [done|]. split; [apply lookup_delete_eq|]. done.
  - apply getResult_with_callbackException.
  - intros s rq cb e now Hcb.
    assert (Hobs : ∀ s0, (step s0 (GetResult now)).2
                         = Result (getResult (pipeline s0) now).1).
    { intros s0. cbn. by destruct (getResult (pipeline s0) now). }
    rewrite Hobs, step_pipeline, Hcb. f_equal.
    assert (Hfault : completionCallback cb (inl e) (pipeline s)
                     = with_callbackException
                         (Some (default e (callbackException (pipeline s))))
                         (pipeline s)).
    { destruct (pipeline s) as [? ? ? ? ? [first|] ?]; reflexivity. }
    by rewrite Hfault, getResult_with_callbackException.
  - intros s now t. cbn. by destruct (getResult (pipeline s) now).
Qed.

Lemma fault_capture_frame_witness :
  let s := (run (Session_init "out" 2)
              [GetIdleRequest; SubmitRequest 0 10; GetIdleRequest;
               SubmitRequest 1 20; Completion 0 (inr (TBlob [8]));
               Completion 1 (inl (ExceptionPtr 7))]).1 in
  let retVal := RequestResult.mk 0 (Some (TBlob [8])) 10 in
  callbackException (pipeline s) = Some (ExceptionPtr 7)
  ∧ completedRequestResults (pipeline s) !! outputFrameId (pipeline s) = Some retVal
  ∧ (getResult (pipeline s) 30).1 = retVal
  ∧ RequestResult.IsEmpty (getResult (pipeline s) 30).1 = false
  ∧ callbackException (getResult (pipeline s) 30).2 = Some (ExceptionPtr 7).
Proof.
  cbv zeta.
  destruct (proj1 (proj2 fault_capture_frame)
              (pipeline (run (Session_init "out" 2)
                 [GetIdleRequest; SubmitRequest 0 10; GetIdleRequest;
                  SubmitRequest 1 20; Completion 0 (inr (TBlob [8]));
                  Completion 1 (inl (ExceptionPtr 7))]).1)
              (ExceptionPtr 7) 30 (RequestResult.mk 0 (Some (TBlob [8])) 10)
              eq_refl eq_refl) as (Hres & _ & _ & _ & Hexn).
  split; [reflexivity|]. split; [reflexivity|]. split; [exact Hres|].
  split; [rewrite Hres; reflexivity|exact Hexn].
Defined.

(** ** Performance counters *)

Lemma total_app l1 l2 : total (l1 ++ l2) = total l1 + total l2.
Proof. unfold total. induction l1 as [|x l1 IH]; cbn; [done|]. rewrite IH. lia. Qed.

Lemma submissionTimes_cons ev tr o os :
  submissionTimes (ev :: tr) (o :: os) = submissionOf ev o ++ submissionTimes tr os.
Proof. destruct ev; try reflexivity. by destruct o. Qed.

Lemma submissionTimes_run_cons s ev tr :
  submissionTimes (ev :: tr) (run s (ev :: tr)).2 =
    submissionOf ev (step s ev).2 ++ submissionTimes tr (run (step s ev).1 tr).2.
Proof. rewrite run_cons. cbn [snd]. apply submissionTimes_cons. Qed.

(** The counters after one transition, in terms of what it retrieved. *)
Lemma step_counters s ev :
  consistent (pipeline s) →
  let rs := retrievalOf ev (step s ev).2 in
  let i := perfInfo (pipeline s) in
  let i' := perfInfo (pipeline (step s ev).1) in
  PerformanceInfo.framesCount i'
    = PerformanceInfo.framesCount i + Z.of_nat (length rs)
  ∧ PerformanceInfo.latencySum i'
      = PerformanceInfo.latencySum i + total (latency <$> rs)
  ∧ PerformanceInfo.FPS i'
      = match last rs with
        | Some x =>
            FpsQuotient ((PerformanceInfo.framesCount i + 1) * 1000)
              ((x.1 - PerformanceInfo.startTime i) ÷ 1000000)
        | None => PerformanceInfo.FPS i
        end
  ∧ (PerformanceInfo.startTime i ≠ 0 →
     PerformanceInfo.startTime i' = PerformanceInfo.startTime i).
Proof.
  intros Hs rs i i'. subst rs i i'.
  destruct (Event_is_getResult ev) as [[now ->]|Hev].
  - rewrite retrievalOf_getResult, step_pipeline by done.
    destruct (completedRequestResults (pipeline s) !! outputFrameId (pipeline s))
      as [retVal|] eqn:Hfind.
    + rewrite (getResult_present _ _ _ Hfind). cbn. unfold latency. cbn.
      repeat split; lia.
    + rewrite getResult_absent by done. cbn. repeat split; lia.
  - rewrite retrievalOf_other by done. rewrite step_pipeline. cbn.
    destruct ev as [|request now|request extracted| |now].
    + cbn. repeat split; lia.
    + destruct (decide (outputName (pipeline s) = EmptyString)) as [Hname|Hname].
      * rewrite submitRequest_unconfigured by done. cbn. repeat split; lia.
      * rewrite submitRequest_configured by done. cbn.
        repeat split; try lia.
        intros Hstart. by destruct (Z.eqb_spec (PerformanceInfo.startTime
                                                   (perfInfo (pipeline s))) 0).
    + destruct (started s !! request) as [cb|]; [|repeat split; lia].
      destruct extracted as [e|blob].
      * rewrite completionCallback_failed. cbn. repeat split; lia.
      * cbn. repeat split; lia.
    + repeat split; lia.
    + by destruct (Hev now).
Qed.

(** Frames and latencies add up along every run. *)
Lemma run_counters tr : ∀ s,
  consistent (pipeline s) →
  let rs := retrievals tr (run s tr).2 in
  PerformanceInfo.framesCount (perfInfo (pipeline (run s tr).1))
    = PerformanceInfo.framesCount (perfInfo (pipeline s)) + Z.of_nat (length rs)
  ∧ PerformanceInfo.latencySum (perfInfo (pipeline (run s tr).1))
      = PerformanceInfo.latencySum (perfInfo (pipeline s)) + total (latency <$> rs).
Proof.
  induction tr as [|ev tr IH]; intros s Hs; cbn zeta.
  - cbn. lia.
  - rewrite retrievals_run_cons, run_cons. cbn [fst].
    destruct (IH _ (consistent_step s ev Hs)) as [IHf IHl].
    destruct (step_counters s ev Hs) as (Hf & Hl & _).
    rewrite IHf, IHl, Hf, Hl, fmap_app, total_app, length_app. lia.
Qed.

(** Once the start time is set, it stays, and the throughput is the one
    computed by the last retrieval. *)
Lemma run_throughput tr : ∀ s t0,
  consistent (pipeline s) →
  PerformanceInfo.startTime (perfInfo (pipeline s)) = t0 →
  t0 ≠ 0 →
  let rs := retrievals tr (run s tr).2 in
  PerformanceInfo.startTime (perfInfo (pipeline (run s tr).1)) = t0
  ∧ PerformanceInfo.FPS (perfInfo (pipeline (run s tr).1))
      = match last rs with
        | Some x =>
            FpsQuotient
              ((PerformanceInfo.framesCount (perfInfo (pipeline s))
                + Z.of_nat (length rs)) * 1000)
              ((x.1 - t0) ÷ 1000000)
        | None => PerformanceInfo.FPS (perfInfo (pipeline s))
        end.
Proof.
  induction tr as [|ev tr IH]; intros s t0 Hs Ht0 Hnz; cbn zeta.
  - done.
  - rewrite retrievals_run_cons, run_cons. cbn [fst].
    destruct (step_counters s ev Hs) as (Hf & _ & Hfps & Hstart).
    rewrite Ht0 in Hstart, Hfps. specialize (Hstart Hnz).
    destruct (IH _ t0 (consistent_step s ev Hs) Hstart Hnz) as [IHs IHfps].
    split; [done|]. rewrite IHfps, Hf, Hfps.
    assert (Hone : retrievalOf ev (step s ev).2 = []
                   ∨ ∃ x, retrievalOf ev (step s ev).2 = [x]).
    { unfold retrievalOf. destruct ev; auto. destruct (step _ _).2; auto.
      destruct (RequestResult.IsEmpty r); eauto. }
    destruct Hone as [->|[x ->]].
    + cbn [app length]. by rewrite Z.add_0_r.
    + cbn [app length]. change (last [x]) with (Some x). rewrite last_cons.
      destruct (last (retrievals tr (run (step s ev).1 tr).2)) as [y|] eqn:Hlast.
      * do 2 f_equal. lia.
      * apply last_None in Hlast. rewrite Hlast. cbn [length].
        do 2 f_equal.
Qed.

Lemma unstarted_step s ev :
  unstarted s →
  submissionOf ev (step s ev).2 = [] →
  unstarted (step s ev).1
  ∧ retrievalOf ev (step s ev).2 = []
  ∧ PerformanceInfo.FPS (perfInfo (pipeline (step s ev).1))
      = PerformanceInfo.FPS (perfInfo (pipeline s)).
Proof.
  intros [Hres Hsta Htime] Hsub.
  destruct ev as [|request now|request extracted| |now].
  - cbn. destruct (RequestsPool.getIdleRequest _). by repeat split.
  - cbn in *. destruct (decide (outputName (pipeline s) = EmptyString)) as [Hname|Hname].
    + rewrite submitRequest_unconfigured by done. by repeat split.
    + by rewrite submitRequest_configured in Hsub.
  - cbn. rewrite Hsta, lookup_empty. by repeat split.
  - by repeat split.
  - cbn. rewrite getResult_absent by (by rewrite Hres, lookup_empty).
    by repeat split.
Qed.

Lemma unstarted_run tr : ∀ s t1,
  consistent (pipeline s) →
  unstarted s →
  head (submissionTimes tr (run s tr).2) = Some t1 →
  t1 ≠ 0 →
  let rs := retrievals tr (run s tr).2 in
  PerformanceInfo.startTime (perfInfo (pipeline (run s tr).1)) = t1
  ∧ PerformanceInfo.FPS (perfInfo (pipeline (run s tr).1))
      = match last rs with
        | Some x =>
            FpsQuotient
              ((PerformanceInfo.framesCount (perfInfo (pipeline s))
                + Z.of_nat (length rs)) * 1000)
              ((x.1 - t1) ÷ 1000000)
        | None => PerformanceInfo.FPS (perfInfo (pipeline s))
        end.
Proof.
  induction tr as [|ev tr IH]; intros s t1 Hs Hun Hhead Hnz; cbn zeta.
  - done.
  - rewrite submissionTimes_run_cons in Hhead.
    rewrite retrievals_run_cons, run_cons. cbn [fst].
    pose proof (consistent_step s ev Hs) as Hs1.
    destruct (submissionOf ev (step s ev).2) as [|t ts] eqn:Hsub.
    + destruct (unstarted_step s ev Hun Hsub) as (Hun1 & -> & Hfps).
      destruct (step_counters s ev Hs) as (Hf & _).
      cbn [app] in *.
      destruct (IH _ t1 Hs1 Hun1 Hhead Hnz) as [IHs IHfps].
      split; [done|]. rewrite IHfps, Hfps.
      destruct (unstarted_step s ev Hun Hsub) as (_ & Hnil & _).
      rewrite Hnil in Hf. cbn in Hf. by rewrite Hf, Z.add_0_r.
    + destruct ev as [|request now|request extracted| |now]; try done.
      cbn in Hsub, Hhead.
      destruct (decide (outputName (pipeline s) = EmptyString)) as [Hname|Hname].
      { by rewrite submitRequest_unconfigured in Hsub. }
      rewrite submitRequest_configured in Hsub by done. cbn in Hsub.
      injection Hsub as <- <-. cbn in Hhead. injection Hhead as ->.
      rewrite retrievalOf_other by done. cbn [app].
      assert (Hstart : PerformanceInfo.startTime
                         (perfInfo (pipeline (step s (SubmitRequest request t1)).1))
                       = t1).
      { rewrite step_pipeline, submitRequest_configured by done. cbn.
        by rewrite (unstarted_startTime _ Hun). }
      destruct (run_throughput tr _ t1 Hs1 Hstart Hnz) as [Hst Hfps].
      split; [done|]. rewrite Hfps.
      rewrite step_pipeline, submitRequest_configured by done. done.
Qed.

Lemma unstarted_init name maxAsyncRequests :
  unstarted (Session_init name maxAsyncRequests).
Proof. by split. Qed.

(** C7.  In every session, after K non-empty retrievals at clock
    readings r1..rK of results whose recorded start times are t1..tK, the
    latency counter is the sum of the (ri - ti) and the frame counter is
    K.  The clock reading of the first submission is the session start
    time from then on, and the throughput after the K-th retrieval is
    K * 1000 over the milliseconds from that reading to rK, as
    [duration_cast] counts them.  (A reading of [steady_clock] is some
    time after the clock's epoch, never the epoch itself: zero ticks is
    what [submitRequest] takes for a start time not recorded yet.) *)
Theorem performance_counters name maxAsyncRequests tr :
  let s' := (run (Session_init name maxAsyncRequests) tr).1 in
  let os := (run (Session_init name maxAsyncRequests) tr).2 in
  let rs := retrievals tr os in
  let K := Z.of_nat (length rs) in
  PerformanceInfo.latencySum (perfInfo (pipeline s')) = total (latency <$> rs)
  ∧ PerformanceInfo.framesCount (perfInfo (pipeline s')) = K
  ∧ (∀ t1,
       head (submissionTimes tr os) = Some t1 →
       t1 ≠ 0 →
       PerformanceInfo.startTime (perfInfo (pipeline s')) = t1
       ∧ (∀ rK resK,
            last rs = Some (rK, resK) →
            PerformanceInfo.FPS (perfInfo (pipeline s'))
              = FpsQuotient (K * 1000) ((rK - t1) ÷ 1000000))).
Proof.
  intros s' os rs K. subst s' os rs K.
  pose proof (consistent_init name maxAsyncRequests) as Hs.
  change (PipelineBase_init name maxAsyncRequests)
    with (pipeline (Session_init name maxAsyncRequests)) in Hs.
  destruct (run_counters tr _ Hs) as [Hf Hl].
  split; [by rewrite Hl|]. split; [by rewrite Hf|].
  intros t1 Hhead Hnz.
  destruct (unstarted_run tr _ t1 Hs (unstarted_init _ _) Hhead Hnz) as [Hst Hfps].
  split; [done|]. intros rK resK Hlast.
  rewrite Hfps, Hlast. done.
Qed.

Lemma performance_counters_witness :
  let tr :=
    [GetIdleRequest; SubmitRequest 0 3000000; GetIdleRequest;
     SubmitRequest 1 4000000; Completion 1 (inr (TBlob [1]));
     Completion 0 (inr (TBlob [0])); GetResult 10000000; GetResult 25000000] in
  let s' := (run (Session_init "out" 2) tr).1 in
  head (submissionTimes tr (run (Session_init "out" 2) tr).2) = Some 3000000
  ∧ 3000000 ≠ 0
  ∧ last (retrievals tr (run (Session_init "out" 2) tr).2)
      = Some (25000000, RequestResult.mk 1 (Some (TBlob [1])) 4000000)
  ∧ PerformanceInfo.latencySum (perfInfo (pipeline s')) = 7000000 + 21000000
  ∧ PerformanceInfo.framesCount (perfInfo (pipeline s')) = 2
  ∧ PerformanceInfo.FPS (perfInfo (pipeline s')) = FpsQuotient 2000 22.
Proof.
  cbv zeta.
  assert (Hnz : 3000000 ≠ 0) by lia.
  split; [reflexivity|]. split; [exact Hnz|]. split; [reflexivity|].
  destruct (performance_counters "out" 2
              [GetIdleRequest; SubmitRequest 0 3000000; GetIdleRequest;
               SubmitRequest 1 4000000; Completion 1 (inr (TBlob [1]));
               Completion 0 (inr (TBlob [0])); GetResult 10000000;
               GetResult 25000000]) as (Hl & Hf & Hfps).
  split; [rewrite Hl; reflexivity|]. split; [rewrite Hf; reflexivity|].
  destruct (Hfps 3000000 eq_refl Hnz) as [_ Hq].
  rewrite (Hq _ _ eq_refl). reflexivity.
Defined.

(** ** A callback that fails *)

Lemma submissions_app tr1 tr2 :
  submissions (tr1 ++ tr2) = (submissions tr1 + submissions tr2)%nat.
Proof. induction tr1 as [|ev tr1 IH]; cbn; [done|]. rewrite IH. lia. Qed.

Lemma fresh_init name maxAsyncRequests : fresh (Session_init name maxAsyncRequests).
Proof. split; cbn; intros *; by rewrite lookup_empty. Qed.

(** No transition but a submission that goes through moves [inputFrameId]. *)
Lemma step_inputFrameId s ev :
  inputFrameId (pipeline (step s ev).1) =
    match ev with
    | SubmitRequest _ _ =>
        if decide (outputName (pipeline s) = EmptyString) then inputFrameId (pipeline s)
        else nextFrameId (inputFrameId (pipeline s))
    | _ => inputFrameId (pipeline s)
    end.
Proof.
  rewrite step_pipeline.
  destruct ev as [|request now|request extracted| |now]; try done.
  - case_decide.
    + by rewrite submitRequest_unconfigured.
    + by rewrite submitRequest_configured.
  - destruct (started s !! request) as [cb|]; [|done].
    destruct extracted; [by rewrite completionCallback_failed|done].
  - destruct (completedRequestResults (pipeline s) !! outputFrameId (pipeline s))
      as [retVal|] eqn:Hfind.
    + by rewrite (getResult_present _ _ _ Hfind).
    + by rewrite getResult_absent.
Qed.

Lemma step_inputFrameId_bounds s ev :
  0 ≤ inputFrameId (pipeline s) →
  inputFrameId (pipeline s) + Z.of_nat (submissions [ev]) ≤ INT64_MAX →
  inputFrameId (pipeline s) ≤ inputFrameId (pipeline (step s ev).1)
    ≤ inputFrameId (pipeline s) + Z.of_nat (submissions [ev]).
Proof.
  intros Hpos Hbudget. rewrite step_inputFrameId.
  destruct ev as [|request now|request extracted| |now]; cbn in *; try lia.
  case_decide; [lia|].
  rewrite nextFrameId_spec by lia.
  destruct (Z.eqb_spec (inputFrameId (pipeline s)) INT64_MAX); lia.
Qed.

Lemma fresh_step s ev :
  0 ≤ inputFrameId (pipeline s) →
  inputFrameId (pipeline s) + Z.of_nat (submissions [ev]) ≤ INT64_MAX →
  fresh s → fresh (step s ev).1.
Proof.
  intros Hpos Hbudget [Hsta Hres Hdis].
  pose proof (step_inputFrameId_bounds s ev Hpos Hbudget) as [Hmono _].
  destruct ev as [|request now|request extracted| |now].
  - cbn. destruct (RequestsPool.getIdleRequest _). by split.
  - destruct (decide (outputName (pipeline s) = EmptyString)) as [Hname|Hname].
    { cbn. rewrite submitRequest_unconfigured by done. by split. }
    assert (Hnext : nextFrameId (inputFrameId (pipeline s))
                    = inputFrameId (pipeline s) + 1).
    { rewrite nextFrameId_spec by (cbn in Hbudget; lia).
      destruct (Z.eqb_spec (inputFrameId (pipeline s)) INT64_MAX); [|done].
      cbn in Hbudget. lia. }
    cbn. rewrite submitRequest_configured by done. cbn.
    assert (Hnone : completedRequestResults (pipeline s) !! inputFrameId (pipeline s)
                    = None).
    { destruct (completedRequestResults (pipeline s) !! inputFrameId (pipeline s))
        as [r|] eqn:Hr; [|done]. apply Hres in Hr. lia. }
    split; cbn; rewrite ?Hnext.
    + intros req cb Hcb. apply lookup_insert_Some in Hcb as [[<- <-]|[Hne Hcb]].
      * cbn. split; [done|]. split; [lia|done].
      * destruct (Hsta _ _ Hcb) as (? & ? & ?). split; [done|]. split; [lia|done].
    + intros k r Hk. apply Hres in Hk. lia.
    + intros req1 req2 cb1 cb2 H1 H2 Heq.
      apply lookup_insert_Some in H1 as [[<- <-]|[Hne1 H1]];
        apply lookup_insert_Some in H2 as [[<- <-]|[Hne2 H2]]; cbn in Heq.
      * done.
      * destruct (Hsta _ _ H2) as (_ & ? & _). lia.
      * destruct (Hsta _ _ H1) as (_ & ? & _). lia.
      * by apply (Hdis _ _ _ _ H1 H2).
  - cbn. destruct (started s !! request) as [cb0|] eqn:Hcb0; [|by split].
    destruct (Hsta _ _ Hcb0) as (Hreq0 & Hlt0 & Hnone0).
    assert (Hothers : ∀ req cb, delete request (started s) !! req = Some cb →
                                started s !! req = Some cb ∧ frameID cb ≠ frameID cb0).
    { intros req cb Hcb. apply lookup_delete_Some in Hcb as [Hne Hcb].
      split; [done|]. intros Heq. by apply Hne, (Hdis _ _ _ _ Hcb0 Hcb). }
    destruct extracted as [e|blob].
    + rewrite completionCallback_failed. split; cbn.
      * intros req cb Hcb. apply Hothers in Hcb as [Hcb _]. by apply Hsta.
      * done.
      * intros req1 req2 cb1 cb2 H1 H2.
        apply Hothers in H1 as [H1 _]. apply Hothers in H2 as [H2 _]. by apply Hdis.
    + rewrite completionCallback_extracted. split; cbn.
      * intros req cb Hcb. apply Hothers in Hcb as [Hcb Hne].
        destruct (Hsta _ _ Hcb) as (? & ? & Hnone). split; [done|]. split; [done|].
        rewrite emplace_lookup, Hnone. by case_decide.
      * intros k r. rewrite emplace_lookup.
        destruct (completedRequestResults (pipeline s) !! k) as [old|] eqn:Hk.
        -- intros _. by apply (Hres _ _ Hk).
        -- case_decide; [|done]. intros _. by subst k.
      * intros req1 req2 cb1 cb2 H1 H2.
        apply Hothers in H1 as [H1 _]. apply Hothers in H2 as [H2 _]. by apply Hdis.
  - done.
  - cbn.
    destruct (completedRequestResults (pipeline s) !! outputFrameId (pipeline s))
      as [retVal|] eqn:Hfind.
    + rewrite (getResult_present _ _ _ Hfind). split; cbn.
      * intros req cb Hcb. destruct (Hsta _ _ Hcb) as (? & ? & Hnone).
        split; [done|]. split; [done|].
        apply lookup_delete_None. by right.
      * intros k r Hk. apply lookup_delete_Some in Hk as [_ Hk]. by apply (Hres _ _ Hk).
      * done.
    + rewrite getResult_absent by done. by split.
Qed.

Lemma fresh_run tr : ∀ s,
  consistent (pipeline s) →
  inputFrameId (pipeline s) + Z.of_nat (submissions tr) ≤ INT64_MAX →
  fresh s →
  fresh (run s tr).1
  ∧ inputFrameId (pipeline (run s tr).1)
      ≤ inputFrameId (pipeline s) + Z.of_nat (submissions tr).
Proof.
  induction tr as [|ev tr IH]; intros s Hs Hbudget Hfresh.
  - cbn. split; [done|lia].
  - rewrite run_cons. cbn [fst].
    pose proof (consistent_inputFrameId _ Hs) as [Hpos _].
    change (ev :: tr) with ([ev] ++ tr) in *.
    rewrite submissions_app in *.
    assert (Hb1 : inputFrameId (pipeline s) + Z.of_nat (submissions [ev]) ≤ INT64_MAX)
      by lia.
    pose proof (step_inputFrameId_bounds s ev Hpos Hb1) as [_ Hle].
    destruct (IH (step s ev).1) as [IH1 IH2].
    + by apply consistent_step.
    + lia.
    + by apply fresh_step.
    + split; [done|]. lia.
Qed.

Lemma retired_step f s ev :
  0 ≤ inputFrameId (pipeline s) →
  inputFrameId (pipeline s) + Z.of_nat (submissions [ev]) ≤ INT64_MAX →
  retired f s → retired f (step s ev).1.
Proof.
  intros Hpos Hbudget [Hres Hsta Hlt].
  pose proof (step_inputFrameId_bounds s ev Hpos Hbudget) as [Hmono _].
  split; [| |lia].
  - rewrite step_pipeline.
    destruct ev as [|request now|request extracted| |now]; try done.
    + destruct (decide (outputName (pipeline s) = EmptyString)) as [Hname|Hname].
      * by rewrite submitRequest_unconfigured.
      * by rewrite submitRequest_configured.
    + destruct (started s !! request) as [cb|] eqn:Hcb; [|done].
      destruct extracted as [e|blob]; [by rewrite completionCallback_failed|].
      rewrite completionCallback_extracted. cbn.
      rewrite emplace_lookup, Hres. case_decide; [|done].
      by destruct (Hsta _ _ Hcb).
    + destruct (completedRequestResults (pipeline s) !! outputFrameId (pipeline s))
        as [retVal|] eqn:Hfind.
      * rewrite (getResult_present _ _ _ Hfind). cbn.
        apply lookup_delete_None. by right.
      * by rewrite getResult_absent.
  - destruct ev as [|request now|request extracted| |now]; cbn.
    + by destruct (RequestsPool.getIdleRequest _).
    + destruct (decide (outputName (pipeline s) = EmptyString)) as [Hname|Hname].
      * by rewrite submitRequest_unconfigured.
      * rewrite submitRequest_configured by done. cbn.
        intros req cb Hcb. apply lookup_insert_Some in Hcb as [[<- <-]|[Hne Hcb]].
        -- cbn. lia.
        -- by apply (Hsta _ _ Hcb).
    + destruct (started s !! request) as [cb0|]; [|done]. cbn.
      intros req cb Hcb. apply lookup_delete_Some in Hcb as [_ Hcb].
      by apply (Hsta _ _ Hcb).
    + done.
    + by destruct (getResult _ _).
Qed.

Lemma retired_run f tr : ∀ s,
  consistent (pipeline s) →
  inputFrameId (pipeline s) + Z.of_nat (submissions tr) ≤ INT64_MAX →
  retired f s →
  retired f (run s tr).1
  ∧ (∀ r, r ∈ retrieved tr (run s tr).2 → RequestResult.frameId r ≠ f).
Proof.
  induction tr as [|ev tr IH]; intros s Hs Hbudget Hret.
  - split; [done|]. intros r Hr. by apply elem_of_nil in Hr.
  - pose proof (consistent_inputFrameId _ Hs) as [Hpos _].
    change (ev :: tr) with ([ev] ++ tr) in Hbudget.
    rewrite submissions_app in Hbudget.
    assert (Hb1 : inputFrameId (pipeline s) + Z.of_nat (submissions [ev]) ≤ INT64_MAX)
      by lia.
    pose proof (step_inputFrameId_bounds s ev Hpos Hb1) as [_ Hle].
    destruct (IH (step s ev).1) as [IH1 IH2].
    + by apply consistent_step.
    + lia.
    + by apply retired_step.
    + rewrite run_cons. cbn [fst]. split; [done|].
      unfold retrieved. rewrite <- run_cons, retrievals_run_cons, fmap_app.
      intros r Hr. apply elem_of_app in Hr as [Hr|Hr]; [|by apply IH2].
      destruct (Event_is_getResult ev) as [[now ->]|Hev].
      * rewrite retrievalOf_getResult in Hr by done.
        destruct (completedRequestResults (pipeline s) !! outputFrameId (pipeline s))
          as [retVal|] eqn:Hfind; [|by apply elem_of_nil in Hr].
        apply list_elem_of_singleton in Hr. cbn in Hr. subst r.
        destruct (consistent_results _ Hs _ _ Hfind) as [-> _].
        intros Heq. rewrite Heq, (retired_results _ _ Hret) in Hfind. done.
      * rewrite retrievalOf_other in Hr by done. by apply elem_of_nil in Hr.
Qed.

Lemma getIdleRequest_keeps_InUse pool i :
  pool !! i = Some InUse → (RequestsPool.getIdleRequest pool).2 !! i = Some InUse.
Proof.
  revert i. induction pool as [|[|] pool IH]; intros i Hi; [done| |].
  - destruct i; [done|]. done.
  - cbn. destruct (RequestsPool.getIdleRequest pool) as [r pool'] eqn:Hget. cbn.
    destruct i; [done|]. cbn in *. by apply IH.
Qed.

Lemma held_step req s ev :
  (∀ now, ev ≠ SubmitRequest req now) →
  held req s → held req (step s ev).1.
Proof.
  intros Hev [Hslot Hnone Hkeys].
  destruct ev as [|rq now|rq extracted| |now]; cbn.
  - pose proof (getIdleRequest_keeps_InUse _ _ Hslot) as Hkept.
    destruct (RequestsPool.getIdleRequest _). by split.
  - assert (Hne : rq ≠ req) by (intros ->; by apply (Hev now)).
    destruct (decide (outputName (pipeline s) = EmptyString)) as [Hname|Hname].
    + rewrite submitRequest_unconfigured by done. by split.
    + rewrite submitRequest_configured by done. split; cbn.
      * done.
      * by rewrite lookup_insert_ne.
      * intros req' cb Hcb. apply lookup_insert_Some in Hcb as [[<- <-]|[_ Hcb]].
        -- done.
        -- by apply Hkeys.
  - destruct (started s !! rq) as [cb|] eqn:Hcb; [|by split].
    assert (Hne : rq ≠ req) by (intros ->; congruence).
    assert (Hkeys' : ∀ req' cb', delete rq (started s) !! req' = Some cb' →
                                 request cb' = req').
    { intros req' cb' Hcb'. apply lookup_delete_Some in Hcb' as [_ Hcb'].
      by apply Hkeys. }
    destruct extracted as [e|blob].
    + rewrite completionCallback_failed. split; cbn.
      * done.
      * apply lookup_delete_None. by right.
      * done.
    + rewrite completionCallback_extracted. split; cbn.
      * unfold RequestsPool.setRequestIdle. rewrite (Hkeys _ _ Hcb).
        by rewrite list_lookup_insert_ne.
      * apply lookup_delete_None. by right.
      * done.
  - by split.
  - destruct (completedRequestResults (pipeline s) !! outputFrameId (pipeline s))
      as [retVal|] eqn:Hfind.
    + rewrite (getResult_present _ _ _ Hfind). by split.
    + rewrite getResult_absent by done. by split.
Qed.

Lemma held_run req tr : ∀ s,
  (∀ now, SubmitRequest req now ∉ tr) →
  held req s → held req (run s tr).1.
Proof.
  induction tr as [|ev tr IH]; intros s Hno Hheld; [done|].
  rewrite run_cons. cbn [fst]. apply IH.
  - intros now Hin. apply (Hno now). by right.
  - apply held_step; [|done]. intros now ->. apply (Hno now). by left.
Qed.

Lemma keyed_reachable s :
  reachable s → ∀ req cb, started s !! req = Some cb → request cb = req.
Proof.
  apply (reachable_invariant
           (λ s, ∀ req cb, started s !! req = Some cb → request cb = req)).
  - intros name n req cb. cbn. by rewrite lookup_empty.
  - intros s0 ev Hkeys.
    destruct ev as [|request now|request extracted| |now]; cbn.
    + by destruct (RequestsPool.getIdleRequest _).
    + destruct (decide (outputName (pipeline s0) = EmptyString)) as [Hname|Hname].
      * by rewrite submitRequest_unconfigured.
      * rewrite submitRequest_configured by done. cbn.
        intros req cb Hcb. apply lookup_insert_Some in Hcb as [[<- <-]|[_ Hcb]];
          [done|by apply Hkeys].
    + destruct (started s0 !! request); [|done]. cbn.
      intros req cb Hcb. apply lookup_delete_Some in Hcb as [_ Hcb]. by apply Hkeys.
    + done.
    + by destruct (getResult _ _).
Qed.

(** C8.  A session in which [submitRequest] is called at most INT64_MAX
    times, so that no frame id is handed out twice.  When the callback
    of a started request fails while copying its output, it stores the
    exception (unless one is stored already) and nothing else: the pool
    is as it was, so the request is not set Idle, and the buffer and all
    counters are untouched; nothing is stored under the callback's frame
    id.  From then on nothing ever is: no [getResult] returns a result
    with that frame id, and every [getResult] made while [outputFrameId]
    is that frame id returns the empty result and changes nothing.  The
    request, if it was InUse, stays InUse for as long as the caller does
    not submit that same request again. *)
Theorem failed_callback_keeps_slot name maxAsyncRequests pre rq cb e post :
  let s := (run (Session_init name maxAsyncRequests) pre).1 in
  let s1 := (step s (Completion rq (inl e))).1 in
  let s2 := (run s1 post).1 in
  started s !! rq = Some cb →
  Z.of_nat (submissions (pre ++ post)) ≤ INT64_MAX →
  (requestsPool (pipeline s1) = requestsPool (pipeline s)
   ∧ completedRequestResults (pipeline s1) = completedRequestResults (pipeline s)
   ∧ inputFrameId (pipeline s1) = inputFrameId (pipeline s)
   ∧ outputFrameId (pipeline s1) = outputFrameId (pipeline s)
   ∧ perfInfo (pipeline s1) = perfInfo (pipeline s)
   ∧ callbackException (pipeline s1)
       = Some (default e (callbackException (pipeline s)))
   ∧ completedRequestResults (pipeline s1) !! frameID cb = None)
  ∧ completedRequestResults (pipeline s2) !! frameID cb = None
  ∧ (∀ r, r ∈ retrieved post (run s1 post).2 →
          RequestResult.frameId r ≠ frameID cb)
  ∧ (∀ now, outputFrameId (pipeline s2) = frameID cb →
            getResult (pipeline s2) now = (RequestResult.empty, pipeline s2))
  ∧ (requestsPool (pipeline s) !! rq = Some InUse →
     (∀ now, SubmitRequest rq now ∉ post) →
     requestsPool (pipeline s2) !! rq = Some InUse).
Proof.
  intros s s1 s2 Hcb Hbudget.
  rewrite submissions_app in Hbudget.
  assert (Hreach : reachable s) by apply reachable_run, reachable_init.
  pose proof (consistent_reachable _ Hreach) as Hs.
  destruct (fresh_run pre (Session_init name maxAsyncRequests)) as [Hfresh Hle].
  { apply consistent_init. }
  { cbn [Session_init pipeline PipelineBase_init inputFrameId]. lia. }
  { apply fresh_init. }
  fold s in Hfresh, Hle.
  cbn [Session_init pipeline PipelineBase_init inputFrameId] in Hle.
  destruct (fresh_started _ Hfresh _ _ Hcb) as (Hrq & Hlt & Hnone).
  assert (Hs1 : s1 = mkSession (completionCallback cb (inl e) (pipeline s))
                       (delete rq (started s))).
  { subst s1. cbn. by rewrite Hcb. }
  assert (Hstep :
    requestsPool (pipeline s1) = requestsPool (pipeline s)
    ∧ completedRequestResults (pipeline s1) = completedRequestResults (pipeline s)
    ∧ inputFrameId (pipeline s1) = inputFrameId (pipeline s)
    ∧ outputFrameId (pipeline s1) = outputFrameId (pipeline s)
    ∧ perfInfo (pipeline s1) = perfInfo (pipeline s)
    ∧ callbackException (pipeline s1)
        = Some (default e (callbackException (pipeline s)))).
  { rewrite Hs1, completionCallback_failed. cbn.
    by destruct (callbackException (pipeline s)). }
  destruct Hstep as (Hpool & Hbuf & Hin & Hout & Hperf & Hexn).
  assert (Hcons1 : consistent (pipeline s1)) by apply consistent_step, Hs.
  assert (Hret : retired (frameID cb) s1).
  { split.
    - by rewrite Hbuf.
    - rewrite Hs1. cbn. intros req cb' Hcb' Heq.
      apply lookup_delete_Some in Hcb' as [Hne Hcb'].
      by apply Hne, (fresh_distinct _ Hfresh _ _ _ _ Hcb Hcb').
    - by rewrite Hin. }
  destruct (retired_run (frameID cb) post s1 Hcons1) as [Hret2 Hnever]; [|done|].
  { rewrite Hin. lia. }
  fold s2 in Hret2.
  split; [by rewrite Hbuf|].
  split; [apply Hret2|]. split; [exact Hnever|]. split.
  - intros now Hat. apply getResult_absent. rewrite Hat. apply Hret2.
  - intros Hslot Hno.
    apply (held_run rq post s1 Hno). split.
    + by rewrite Hpool.
    + rewrite Hs1. cbn. apply lookup_delete_eq.
    + rewrite Hs1. cbn. intros req' cb' Hcb'.
      apply lookup_delete_Some in Hcb' as [_ Hcb'].
      by apply (keyed_reachable _ Hreach).
Qed.

Lemma failed_callback_keeps_slot_witness :
  let pre := [GetIdleRequest; SubmitRequest 0 10] in
  let post := [WaitForData; GetResult 20; GetIdleRequest; GetResult 30] in
  let s := (run (Session_init "out" 1) pre).1 in
  let s2 := (run (step s (Completion 0 (inl (ExceptionPtr 7)))).1 post).1 in
  started s !! 0%nat = Some (mkCallback 10 0 0)
  ∧ Z.of_nat (submissions (pre ++ post)) ≤ INT64_MAX
  ∧ requestsPool (pipeline s) !! 0%nat = Some InUse
  ∧ (∀ now, SubmitRequest 0 now ∉ post)
  ∧ completedRequestResults (pipeline s2) !! 0 = None
  ∧ requestsPool (pipeline s2) !! 0%nat = Some InUse.
Proof.
  cbv zeta.
  assert (Hcb : started (run (Session_init "out" 1)
                           [GetIdleRequest; SubmitRequest 0 10]).1 !! 0%nat
                = Some (mkCallback 10 0 0)) by reflexivity.
  assert (Hbudget :
    Z.of_nat (submissions ([GetIdleRequest; SubmitRequest 0 10]
                           ++ [WaitForData; GetResult 20; GetIdleRequest; GetResult 30]))
    ≤ INT64_MAX) by (cbn; unfold INT64_MAX; lia).
  assert (Hslot : requestsPool (pipeline (run (Session_init "out" 1)
                    [GetIdleRequest; SubmitRequest 0 10]).1) !! 0%nat = Some InUse)
    by reflexivity.
  assert (Hno : ∀ now, SubmitRequest 0 now
                       ∉ [WaitForData; GetResult 20; GetIdleRequest; GetResult 30]).
  { intros now Hin. repeat (apply elem_of_cons in Hin as [Hin|Hin]; [discriminate|]).
    by apply elem_of_nil in Hin. }
  destruct (failed_callback_keeps_slot "out" 1
              [GetIdleRequest; SubmitRequest 0 10] 0%nat (mkCallback 10 0 0)
              (ExceptionPtr 7)
              [WaitForData; GetResult 20; GetIdleRequest; GetResult 30]
              Hcb Hbudget) as (_ & Hnone & _ & _ & Hheld).
  split; [exact Hcb|]. split; [exact Hbudget|]. split; [exact Hslot|].
  split; [exact Hno|]. split; [exact Hnone|]. exact (Hheld Hslot Hno).
Defined.

(** ** The scenarios of the specification, run *)

(** Pool of two, five units completing in the order 1, 0, 3, 2, 4: the
    results still come back as 0, 1, 2, 3, 4. *)
Example outOfOrder_retrieved :
  retrieved outOfOrder (run (Session_init "out" 2) outOfOrder).2 =
    [RequestResult.mk 0 (Some (TBlob [0])) 10;
     RequestResult.mk 1 (Some (TBlob [1])) 20;
     RequestResult.mk 2 (Some (TBlob [2])) 50;
     RequestResult.mk 3 (Some (TBlob [3])) 60;
     RequestResult.mk 4 (Some (TBlob [4])) 90].
Proof. reflexivity. Qed.

(** One unit whose callback fails: [waitForData] throws, [getResult]
    stays empty. *)
Example failing_unit :
  (run (Session_init "out" 1)
     [GetIdleRequest; SubmitRequest 0 10; Completion 0 (inl (ExceptionPtr 7));
      WaitForData; GetResult 20; WaitForData; GetResult 30]).2 =
    [Acquired (Some 0%nat); Submitted 0; CallbackRan;
     Threw (rethrow_exception (ExceptionPtr 7)); Result RequestResult.empty;
     Threw (rethrow_exception (ExceptionPtr 7)); Result RequestResult.empty].
Proof. reflexivity. Qed.

(** * Further properties *)

(** ** What the caller observes at a position of a run *)

Lemma run_take_observation tr : ∀ s i ev,
  tr !! i = Some ev →
  (run s tr).2 !! i = Some (step (run s (take i tr)).1 ev).2.
Proof.
  induction tr as [|ev0 tr IH]; intros s i ev Hi; [done|].
  rewrite run_cons. destruct i as [|i].
  - cbn in Hi. injection Hi as ->. done.
  - cbn in Hi. cbn [snd take]. rewrite run_cons. cbn [fst].
    rewrite lookup_cons. by apply IH.
Qed.

(** ** A stored exception stays with waitForData *)

Lemma waitForData_stored p e :
  callbackException p = Some e → waitForData p = WaitThrew (rethrow_exception e).
Proof. intros He. unfold waitForData, waitPredicate. by rewrite He. Qed.

(** X1.  Once an exception is stored, every later [waitForData] of the
    session throws it again, whatever else happens in between: the stored
    exception is never cleared, so [waitForData] never blocks and never
    returns normally again. *)
Theorem waitForData_keeps_throwing s tr e :
  callbackException (pipeline s) = Some e →
  (∀ i, tr !! i = Some WaitForData →
        (run s tr).2 !! i = Some (Threw (rethrow_exception e)))
  ∧ waitForData (pipeline (run s tr).1) = WaitThrew (rethrow_exception e).
Proof.
  intros He. split.
  - intros i Hi. rewrite (run_take_observation _ _ _ _ Hi). cbn.
    by rewrite (waitForData_stored _ e) by by apply run_callbackException_kept.
  - by apply waitForData_stored, run_callbackException_kept.
Qed.

Lemma waitForData_keeps_throwing_witness :
  let s := (run (Session_init "out" 1)
              [GetIdleRequest; SubmitRequest 0 10;
               Completion 0 (inl (ExceptionPtr 7))]).1 in
  callbackException (pipeline s) = Some (ExceptionPtr 7)
  ∧ waitForData
      (pipeline (run s [GetResult 20; GetIdleRequest; SubmitRequest 0 30]).1)
    = WaitThrew (rethrow_exception (ExceptionPtr 7)).
Proof.
  cbv zeta. split; [reflexivity|].
  exact (proj2 (waitForData_keeps_throwing
           (run (Session_init "out" 1)
              [GetIdleRequest; SubmitRequest 0 10;
               Completion 0 (inl (ExceptionPtr 7))]).1
           [GetResult 20; GetIdleRequest; SubmitRequest 0 30]
           (ExceptionPtr 7) eq_refl)).
Defined.

(** ** The stored exception influences nothing but waitForData *)

Lemma step_withoutException s ev :
  withoutException (step s ev).1 = withoutException (step (withoutException s) ev).1
  ∧ (ev ≠ WaitForData → (step s ev).2 = (step (withoutException s) ev).2).
Proof.
  destruct s as [[pool results name input output exn perf] sta].
  destruct ev as [|rq now|rq extracted| |now]; unfold withoutException; cbn.
  - destruct (RequestsPool.getIdleRequest pool). done.
  - unfold submitRequest. cbn.
    destruct (String.eqb name EmptyString); [done|].
    destruct (PerformanceInfo.startTime perf =? 0); cbn;
      destruct (wrap_int64 (input + 1) <? 0); done.
  - destruct (sta !! rq) as [cb|]; [|done].
    destruct extracted as [e|blob]; cbn; [|done]. by destruct exn.
  - done.
  - unfold getResult. cbn. destruct (results !! output) as [retVal|]; [|done].
    cbn. destruct (wrap_int64 (output + 1) <? 0); done.
Qed.

Lemma step_sameButException s1 s2 ev :
  withoutException s1 = withoutException s2 →
  withoutException (step s1 ev).1 = withoutException (step s2 ev).1
  ∧ (ev ≠ WaitForData → (step s1 ev).2 = (step s2 ev).2).
Proof.
  intros Heq.
  destruct (step_withoutException s1 ev) as [H1 H1'].
  destruct (step_withoutException s2 ev) as [H2 H2'].
  rewrite H1, H2, Heq. split; [done|].
  intros Hev. by rewrite H1', H2', Heq.
Qed.

(** X2.  The stored exception is read by [waitForData] only.  Two
    sessions that differ at most in their stored exception, taken through
    the same events, still differ at most in their stored exception, and
    their callers see the same thing at every event other than
    [waitForData]: a pending fault never makes [submitRequest] refuse,
    never keeps a callback from depositing, never changes what
    [getResult] returns. *)
Theorem stored_exception_shows_in_waitForData_only s1 s2 tr :
  withoutException s1 = withoutException s2 →
  withoutException (run s1 tr).1 = withoutException (run s2 tr).1
  ∧ (∀ i ev, tr !! i = Some ev → ev ≠ WaitForData →
             (run s1 tr).2 !! i = (run s2 tr).2 !! i).
Proof.
  revert s1 s2. induction tr as [|ev0 tr IH]; intros s1 s2 Heq; [done|].
  destruct (step_sameButException s1 s2 ev0 Heq) as [Hst Hobs].
  destruct (IH _ _ Hst) as [IHst IHobs].
  rewrite !run_cons. cbn [fst snd]. split; [done|].
  intros [|i] ev Hi Hev; cbn in Hi.
  - injection Hi as ->. cbn. by rewrite Hobs.
  - rewrite !lookup_cons. by apply (IHobs i ev).
Qed.

Lemma stored_exception_shows_in_waitForData_only_witness :
  let s1 := (run (Session_init "out" 1) [GetIdleRequest; SubmitRequest 0 10]).1 in
  let s2 := mkSession (with_callbackException (Some (ExceptionPtr 3)) (pipeline s1))
              (started s1) in
  let tr := [Completion 0 (inr (TBlob [5])); WaitForData; GetResult 20] in
  withoutException s1 = withoutException s2
  ∧ (run s1 tr).2 !! 2%nat = (run s2 tr).2 !! 2%nat.
Proof.
  cbv zeta. split; [reflexivity|].
  refine (proj2 (stored_exception_shows_in_waitForData_only
           (run (Session_init "out" 1) [GetIdleRequest; SubmitRequest 0 10]).1
           (mkSession
              (with_callbackException (Some (ExceptionPtr 3))
                 (pipeline (run (Session_init "out" 1)
                              [GetIdleRequest; SubmitRequest 0 10]).1))
              (started (run (Session_init "out" 1)
                          [GetIdleRequest; SubmitRequest 0 10]).1))
           [Completion 0 (inr (TBlob [5])); WaitForData; GetResult 20] eq_refl)
           2%nat (GetResult 20) eq_refl _).
  discriminate.
Defined.

(** ** The sampled in-use count *)

Lemma step_numRequestsInUse s ev :
  PerformanceInfo.numRequestsInUse (perfInfo (pipeline (step s ev).1)) =
    match ev with
    | SubmitRequest _ _ =>
        Z.of_nat (RequestsPool.getInUseRequestsCount (requestsPool (pipeline s)))
          mod 2 ^ 32
    | _ => PerformanceInfo.numRequestsInUse (perfInfo (pipeline s))
    end.
Proof.
  rewrite step_pipeline.
  destruct ev as [|rq now|rq extracted| |now]; try done.
  - destruct (decide (outputName (pipeline s) = EmptyString)) as [Hname|Hname].
    + by rewrite submitRequest_unconfigured.
    + by rewrite submitRequest_configured.
  - destruct (started s !! rq) as [cb|]; [|done].
    destruct extracted; [by rewrite completionCallback_failed|done].
  - destruct (completedRequestResults (pipeline s) !! outputFrameId (pipeline s))
      as [retVal|] eqn:Hfind.
    + by rewrite (getResult_present _ _ _ Hfind).
    + by rewrite getResult_absent.
Qed.

Lemma run_numRequestsInUse tr : ∀ s,
  (∀ ev, ev ∈ tr → isSubmitRequest ev = false) →
  PerformanceInfo.numRequestsInUse (perfInfo (pipeline (run s tr).1))
    = PerformanceInfo.numRequestsInUse (perfInfo (pipeline s)).
Proof.
  induction tr as [|ev tr IH]; intros s Hno; [done|].
  rewrite run_cons. cbn [fst]. rewrite IH.
  - rewrite step_numRequestsInUse.
    specialize (Hno ev (list_elem_of_here _ _)). by destruct ev.
  - intros ev' Hin. apply Hno. by right.
Qed.

(** X3.  [perfInfo.numRequestsInUse] is the pool's in-use count as it
    was when [submitRequest] was last called (reduced to 32 bits), whether
    that call went through or threw: no callback and no [getResult]
    refreshes it, so it does not follow the requests that become idle
    afterwards. *)
Theorem numRequestsInUse_is_last_sample s pre rq now post :
  (∀ ev, ev ∈ post → isSubmitRequest ev = false) →
  PerformanceInfo.numRequestsInUse
    (perfInfo (pipeline (run s (pre ++ SubmitRequest rq now :: post)).1))
  = Z.of_nat
      (RequestsPool.getInUseRequestsCount (requestsPool (pipeline (run s pre).1)))
      mod 2 ^ 32.
Proof.
  intros Hno. rewrite run_app. cbn [fst]. rewrite run_cons. cbn [fst].
  rewrite run_numRequestsInUse by done. by rewrite step_numRequestsInUse.
Qed.

Lemma numRequestsInUse_is_last_sample_witness :
  let post := [Completion 0 (inr (TBlob [1])); GetResult 20] in
  (∀ ev, ev ∈ post → isSubmitRequest ev = false)
  ∧ PerformanceInfo.numRequestsInUse
      (perfInfo (pipeline
         (run (Session_init "out" 1)
            ([GetIdleRequest] ++ SubmitRequest 0 10 :: post)).1)) = 1
  ∧ RequestsPool.getInUseRequestsCount
      (requestsPool (pipeline
         (run (Session_init "out" 1)
            ([GetIdleRequest] ++ SubmitRequest 0 10 :: post)).1)) = 0%nat.
Proof.
  cbv zeta.
  assert (Hno : ∀ ev, ev ∈ [Completion 0 (inr (TBlob [1])); GetResult 20] →
                      isSubmitRequest ev = false).
  { intros ev Hin.
    repeat (apply elem_of_cons in Hin as [->|Hin]; [reflexivity|]).
    by apply elem_of_nil in Hin. }
  split; [exact Hno|]. split; [|reflexivity].
  rewrite (numRequestsInUse_is_last_sample (Session_init "out" 1)
             [GetIdleRequest] 0%nat 10
             [Completion 0 (inr (TBlob [1])); GetResult 20] Hno).
  reflexivity.
Defined.

(** ** The session start time *)

Lemma step_startTime s ev :
  PerformanceInfo.startTime (perfInfo (pipeline (step s ev).1)) =
    match submissionOf ev (step s ev).2 with
    | now :: _ =>
        if PerformanceInfo.startTime (perfInfo (pipeline s)) =? 0 then now
        else PerformanceInfo.startTime (perfInfo (pipeline s))
    | [] => PerformanceInfo.startTime (perfInfo (pipeline s))
    end.
Proof.
  destruct ev as [|rq now|rq extracted| |now]; cbn.
  - by destruct (RequestsPool.getIdleRequest _).
  - destruct (decide (outputName (pipeline s) = EmptyString)) as [Hname|Hname].
    + by rewrite submitRequest_unconfigured.
    + by rewrite submitRequest_configured.
  - destruct (started s !! rq) as [cb|]; [|done].
    destruct extracted; [by rewrite completionCallback_failed|done].
  - done.
  - destruct (completedRequestResults (pipeline s) !! outputFrameId (pipeline s))
      as [retVal|] eqn:Hfind.
    + by rewrite (getResult_present _ _ _ Hfind).
    + by rewrite getResult_absent.
Qed.

Lemma step_startTime_cases s ev :
  PerformanceInfo.startTime (perfInfo (pipeline (step s ev).1))
    = PerformanceInfo.startTime (perfInfo (pipeline s))
  ∨ (PerformanceInfo.startTime (perfInfo (pipeline s)) = 0
     ∧ ∃ rq, ev = SubmitRequest rq
                    (PerformanceInfo.startTime (perfInfo (pipeline (step s ev).1)))).
Proof.
  rewrite step_startTime.
  destruct ev as [|rq now|rq extracted| |now]; cbn [submissionOf]; auto.
  destruct (step s (SubmitRequest rq now)).2; auto.
  destruct (Z.eqb_spec (PerformanceInfo.startTime (perfInfo (pipeline s))) 0);
    eauto.
Qed.

Lemma run_startTime_cases tr : ∀ s,
  PerformanceInfo.startTime (perfInfo (pipeline (run s tr).1))
    = PerformanceInfo.startTime (perfInfo (pipeline s))
  ∨ (PerformanceInfo.startTime (perfInfo (pipeline s)) = 0
     ∧ ∃ rq, SubmitRequest rq
               (PerformanceInfo.startTime (perfInfo (pipeline (run s tr).1))) ∈ tr).
Proof.
  induction tr as [|ev tr IH]; intros s; [by left|].
  rewrite run_cons. cbn [fst].
  destruct (IH (step s ev).1) as [Hsame|[Hzero [rq Hin]]];
    destruct (step_startTime_cases s ev) as [Hstep|[Hunset [rq' Hev]]].
  - left. by rewrite Hsame.
  - right. split; [done|]. exists rq'. rewrite Hsame, <- Hev. by left.
  - right. split; [by rewrite <- Hstep|]. exists rq. by right.
  - right. split; [done|]. exists rq. by right.
Qed.

(** X4.  [perfInfo.startTime] is written by [submitRequest] only, and
    only while it is zero.  No other operation changes it; once it is
    not zero, no run of the session changes it; and whenever a run does
    change it, the new value is the clock reading of one of the
    [submitRequest] calls of that run. *)
Theorem startTime_is_written_once s tr :
  (∀ ev, isSubmitRequest ev = false →
         PerformanceInfo.startTime (perfInfo (pipeline (step s ev).1))
         = PerformanceInfo.startTime (perfInfo (pipeline s)))
  ∧ (PerformanceInfo.startTime (perfInfo (pipeline s)) ≠ 0 →
     PerformanceInfo.startTime (perfInfo (pipeline (run s tr).1))
     = PerformanceInfo.startTime (perfInfo (pipeline s)))
  ∧ (PerformanceInfo.startTime (perfInfo (pipeline (run s tr).1))
     ≠ PerformanceInfo.startTime (perfInfo (pipeline s)) →
     PerformanceInfo.startTime (perfInfo (pipeline s)) = 0
     ∧ ∃ rq, SubmitRequest rq
               (PerformanceInfo.startTime (perfInfo (pipeline (run s tr).1))) ∈ tr).
Proof.
  split; [|split].
  - intros ev Hev.
    destruct (step_startTime_cases s ev) as [Hsame|[_ [rq Hsub]]]; [done|].
    rewrite Hsub in Hev. discriminate.
  - intros Hset. by destruct (run_startTime_cases tr s) as [Hsame|[Hzero _]].
  - intros Hchanged. by destruct (run_startTime_cases tr s) as [Hsame|Hnew].
Qed.

Lemma startTime_is_written_once_witness :
  let s := (run (Session_init "out" 2) [GetIdleRequest; SubmitRequest 0 10]).1 in
  let tr := [GetIdleRequest; SubmitRequest 1 20; Completion 0 (inr (TBlob [1]));
             GetResult 30] in
  PerformanceInfo.startTime (perfInfo (pipeline s)) ≠ 0
  ∧ PerformanceInfo.startTime (perfInfo (pipeline (run s tr).1)) = 10.
Proof.
  cbv zeta.
  assert (Hset : PerformanceInfo.startTime
                   (perfInfo (pipeline (run (Session_init "out" 2)
                      [GetIdleRequest; SubmitRequest 0 10]).1)) ≠ 0)
    by (change (10 ≠ 0); lia).
  split; [exact Hset|].
  rewrite (proj1 (proj2 (startTime_is_written_once
             (run (Session_init "out" 2) [GetIdleRequest; SubmitRequest 0 10]).1
             [GetIdleRequest; SubmitRequest 1 20; Completion 0 (inr (TBlob [1]));
              GetResult 30])) Hset).
  reflexivity.
Defined.

(** ** The retrieval counter counts *)

Lemma retrievalOf_outputFrameId s ev :
  consistent (pipeline s) →
  outputFrameId (pipeline (step s ev).1)
  = (outputFrameId (pipeline s) + Z.of_nat (length (retrievalOf ev (step s ev).2)))
      mod 2 ^ 63.
Proof.
  intros Hs. pose proof (consistent_outputFrameId _ Hs) as Hrange.
  assert (Hsame : outputFrameId (pipeline s)
                  = (outputFrameId (pipeline s) + Z.of_nat 0) mod 2 ^ 63).
  { rewrite Z.add_0_r, Z.mod_small; [done|]. unfold INT64_MAX in Hrange. lia. }
  destruct (Event_is_getResult ev) as [[now ->]|Hev].
  - rewrite retrievalOf_getResult, step_pipeline by done.
    destruct (completedRequestResults (pipeline s) !! outputFrameId (pipeline s))
      as [retVal|] eqn:Hfind.
    + rewrite (getResult_present _ _ _ Hfind). cbn. by apply nextFrameId_mod.
    + by rewrite getResult_absent.
  - by rewrite retrievalOf_other, step_outputFrameId_other.
Qed.

Lemma run_outputFrameId tr : ∀ s,
  consistent (pipeline s) →
  outputFrameId (pipeline (run s tr).1)
  = (outputFrameId (pipeline s)
     + Z.of_nat (length (retrievals tr (run s tr).2))) mod 2 ^ 63.
Proof.
  induction tr as [|ev tr IH]; intros s Hs.
  - cbn. rewrite Z.add_0_r.
    pose proof (consistent_outputFrameId _ Hs).
    rewrite Z.mod_small; unfold INT64_MAX in *; lia.
  - rewrite retrievals_run_cons, run_cons. cbn [fst].
    rewrite (IH _ (consistent_step s ev Hs)), retrievalOf_outputFrameId by done.
    rewrite length_app, Zplus_mod_idemp_l. f_equal. lia.
Qed.

(** X5.  [outputFrameId] counts the results handed out.  In every
    session it is the number of non-empty results that [getResult] has
    returned, modulo 2^63, and it is [perfInfo.framesCount] modulo 2^63:
    the frame id of the next result is always known from the frame
    count. *)
Theorem outputFrameId_counts_results name maxAsyncRequests tr :
  let s' := (run (Session_init name maxAsyncRequests) tr).1 in
  let os := (run (Session_init name maxAsyncRequests) tr).2 in
  outputFrameId (pipeline s') = Z.of_nat (length (retrievals tr os)) mod 2 ^ 63
  ∧ outputFrameId (pipeline s')
    = PerformanceInfo.framesCount (perfInfo (pipeline s')) mod 2 ^ 63.
Proof.
  cbv zeta.
  pose proof (consistent_init name maxAsyncRequests) as Hs.
  change (PipelineBase_init name maxAsyncRequests)
    with (pipeline (Session_init name maxAsyncRequests)) in Hs.
  pose proof (run_outputFrameId tr _ Hs) as Ho.
  destruct (run_counters tr _ Hs) as [Hf _].
  split; [by rewrite Ho|]. by rewrite Ho, Hf.
Qed.

(** ** Start times of the results *)

Lemma nextFrameId_below x bound :
  0 ≤ x → x < bound → bound ≤ INT64_MAX → nextFrameId x = x + 1.
Proof.
  intros Hpos Hlt Hbound. rewrite nextFrameId_spec by lia.
  destruct (Z.eqb_spec x INT64_MAX); lia.
Qed.

Lemma stamped_step ts s ev :
  inputFrameId (pipeline s) + Z.of_nat (submissions [ev]) ≤ INT64_MAX →
  stamped ts s →
  stamped (ts ++ submissionOf ev (step s ev).2) (step s ev).1.
Proof.
  intros Hbudget [Hin Hsta Hres].
  destruct ev as [|rq now|rq extracted| |now]; cbn.
  - destruct (RequestsPool.getIdleRequest _). cbn. rewrite app_nil_r. by split.
  - destruct (decide (outputName (pipeline s) = EmptyString)) as [Hname|Hname].
    + rewrite submitRequest_unconfigured by done. cbn. rewrite app_nil_r. by split.
    + rewrite submitRequest_configured by done. cbn in *.
      split; cbn.
      * rewrite (nextFrameId_below _ (inputFrameId (pipeline s) + 1)) by lia.
        rewrite length_app. cbn. lia.
      * intros req cb Hcb. apply lookup_insert_Some in Hcb as [[<- <-]|[_ Hcb]]; cbn.
        -- split; [lia|]. rewrite Hin, Nat2Z.id.
           by rewrite lookup_app_r, Nat.sub_diag by lia.
        -- destruct (Hsta _ _ Hcb) as [Hpos Hts]. split; [done|].
           by apply lookup_app_l_Some.
      * intros k r Hk. destruct (Hres _ _ Hk) as [Hpos Hts]. split; [done|].
        by apply lookup_app_l_Some.
  - destruct (started s !! rq) as [cb0|] eqn:Hcb0; cbn; rewrite app_nil_r; [|by split].
    destruct (Hsta _ _ Hcb0) as [Hpos0 Hts0].
    assert (Hothers : ∀ req cb, delete rq (started s) !! req = Some cb →
                                0 ≤ frameID cb
                                ∧ ts !! Z.to_nat (frameID cb) = Some (frameStartTime cb)).
    { intros req cb Hcb. apply lookup_delete_Some in Hcb as [_ Hcb].
      by apply (Hsta _ _ Hcb). }
    destruct extracted as [e|blob].
    + rewrite completionCallback_failed. by split.
    + rewrite completionCallback_extracted. split; cbn; [done..|].
      intros k r. rewrite emplace_lookup.
      destruct (completedRequestResults (pipeline s) !! k) as [old|] eqn:Hk.
      * intros [= <-]. by apply Hres.
      * case_decide; [|done]. intros [= <-]. by subst k.
  - rewrite app_nil_r. by split.
  - destruct (completedRequestResults (pipeline s) !! outputFrameId (pipeline s))
      as [retVal|] eqn:Hfind.
    + rewrite (getResult_present _ _ _ Hfind). cbn. rewrite app_nil_r.
      split; cbn; [done..|].
      intros k r Hk. apply lookup_delete_Some in Hk as [_ Hk]. by apply Hres.
    + rewrite getResult_absent by done. cbn. rewrite app_nil_r. by split.
Qed.

Lemma stamped_run tr : ∀ s ts,
  consistent (pipeline s) →
  stamped ts s →
  inputFrameId (pipeline s) + Z.of_nat (submissions tr) ≤ INT64_MAX →
  RequestResult.startTime <$> retrieved tr (run s tr).2
  = take (length (retrieved tr (run s tr).2))
      (drop (Z.to_nat (outputFrameId (pipeline s)))
         (ts ++ submissionTimes tr (run s tr).2)).
Proof.
  unfold retrieved.
  induction tr as [|ev tr IH]; intros s ts Hs Hst Hbudget; [done|].
  pose proof (consistent_inputFrameId _ Hs) as [Hpos Hmax].
  pose proof (consistent_outputFrameId _ Hs) as [Hopos _].
  change (ev :: tr) with ([ev] ++ tr) in Hbudget.
  rewrite submissions_app in Hbudget.
  assert (Hb1 : inputFrameId (pipeline s) + Z.of_nat (submissions [ev]) ≤ INT64_MAX)
    by lia.
  pose proof (step_inputFrameId_bounds s ev Hpos Hb1) as [_ Hle].
  pose proof (stamped_step ts s ev Hb1 Hst) as Hst1.
  pose proof (consistent_step s ev Hs) as Hs1.
  specialize (IH _ _ Hs1 Hst1 ltac:(lia)).
  rewrite retrievals_run_cons, submissionTimes_run_cons, app_assoc.
  destruct (Event_is_getResult ev) as [[now ->]|Hev].
  - rewrite retrievalOf_getResult by done.
    destruct (completedRequestResults (pipeline s) !! outputFrameId (pipeline s))
      as [retVal|] eqn:Hfind.
    + destruct (stamped_results _ _ Hst _ _ Hfind) as [_ Hts].
      assert (Hlt : outputFrameId (pipeline s) < inputFrameId (pipeline s)).
      { apply lookup_lt_Some in Hts. rewrite (stamped_inputFrameId _ _ Hst). lia. }
      assert (Hnext : Z.to_nat (outputFrameId (pipeline (step s (GetResult now)).1))
                      = S (Z.to_nat (outputFrameId (pipeline s)))).
      { rewrite step_pipeline, (getResult_present _ _ _ Hfind). cbn.
        rewrite (nextFrameId_below _ (inputFrameId (pipeline s))) by lia. lia. }
      rewrite Hnext in IH.
      cbn [app]. rewrite !fmap_cons. cbn [length snd].
      erewrite (drop_S _ (RequestResult.startTime retVal)).
      * cbn [take]. by rewrite IH.
      * apply lookup_app_l_Some. by apply lookup_app_l_Some.
    + cbn [app]. rewrite IH. do 2 f_equal.
      by rewrite step_pipeline, getResult_absent.
  - rewrite retrievalOf_other by done. cbn [app]. rewrite IH.
    by rewrite step_outputFrameId_other.
Qed.

Lemma stamped_init name maxAsyncRequests :
  stamped [] (Session_init name maxAsyncRequests).
Proof. split; cbn; [done|..]; intros *; by rewrite lookup_empty. Qed.

(** X6.  In a session with at most INT64_MAX calls of [submitRequest],
    the start times of the non-empty results, in the order [getResult]
    returns them, are the clock readings of the submissions that went
    through, in the order of submission: the k-th result carries the
    reading of the k-th submission.  In particular [getResult] never
    returns more results than there were submissions. *)
Theorem results_carry_submission_readings name maxAsyncRequests tr :
  Z.of_nat (submissions tr) ≤ INT64_MAX →
  let os := (run (Session_init name maxAsyncRequests) tr).2 in
  RequestResult.startTime <$> retrieved tr os
    = take (length (retrieved tr os)) (submissionTimes tr os)
  ∧ (length (retrieved tr os) ≤ length (submissionTimes tr os))%nat.
Proof.
  intros Hbudget os. subst os.
  pose proof (stamped_run tr (Session_init name maxAsyncRequests) []
                (consistent_init _ _) (stamped_init _ _) Hbudget) as Heq.
  cbn [app Session_init pipeline PipelineBase_init outputFrameId] in Heq.
  change (Z.to_nat 0) with 0%nat in Heq. rewrite drop_0 in Heq.
  split; [exact Heq|].
  apply (f_equal length) in Heq. rewrite length_fmap, length_take in Heq. lia.
Qed.

Lemma results_carry_submission_readings_witness :
  Z.of_nat (submissions outOfOrder) ≤ INT64_MAX
  ∧ RequestResult.startTime
      <$> retrieved outOfOrder (run (Session_init "out" 2) outOfOrder).2
    = [10; 20; 50; 60; 90].
Proof.
  assert (Hbudget : Z.of_nat (submissions outOfOrder) ≤ INT64_MAX)
    by (cbn; unfold INT64_MAX; lia).
  split; [exact Hbudget|].
  rewrite (proj1 (results_carry_submission_readings "out" 2 outOfOrder Hbudget)).
  reflexivity.
Defined.

(** ** Retrieval does not overtake submission *)

Lemma window_step s ev :
  consistent (pipeline s) →
  inputFrameId (pipeline s) + Z.of_nat (submissions [ev]) ≤ INT64_MAX →
  fresh s → window s → window (step s ev).1.
Proof.
  intros Hs Hbudget Hfresh [Hcnt Hsta Hres].
  pose proof (consistent_inputFrameId _ Hs) as [Hpos Hmax].
  pose proof (consistent_outputFrameId _ Hs) as [Hopos _].
  destruct ev as [|rq now|rq extracted| |now]; cbn.
  - destruct (RequestsPool.getIdleRequest _). by split.
  - destruct (decide (outputName (pipeline s) = EmptyString)) as [Hname|Hname].
    + rewrite submitRequest_unconfigured by done. by split.
    + rewrite submitRequest_configured by done. cbn in Hbudget.
      split; cbn; [|..|done].
      { rewrite (nextFrameId_below _ (inputFrameId (pipeline s) + 1)) by lia. lia. }
      intros req cb Hcb. apply lookup_insert_Some in Hcb as [[<- <-]|[_ Hcb]]; cbn.
      * done.
      * by apply (Hsta _ _ Hcb).
  - destruct (started s !! rq) as [cb0|] eqn:Hcb0; [|by split].
    assert (Hothers : ∀ req cb, delete rq (started s) !! req = Some cb →
                                outputFrameId (pipeline s) ≤ frameID cb).
    { intros req cb Hcb. apply lookup_delete_Some in Hcb as [_ Hcb].
      by apply (Hsta _ _ Hcb). }
    destruct extracted as [e|blob].
    + rewrite completionCallback_failed. by split.
    + rewrite completionCallback_extracted. split; cbn; [done..|].
      intros k r. rewrite emplace_lookup.
      destruct (completedRequestResults (pipeline s) !! k) as [old|] eqn:Hk.
      * intros _. by apply (Hres _ _ Hk).
      * case_decide; [|done]. intros _. subst k. by apply (Hsta _ _ Hcb0).
  - by split.
  - destruct (completedRequestResults (pipeline s) !! outputFrameId (pipeline s))
      as [retVal|] eqn:Hfind.
    + rewrite (getResult_present _ _ _ Hfind).
      pose proof (fresh_results _ Hfresh _ _ Hfind) as Hlt.
      split; cbn;
        rewrite (nextFrameId_below _ (inputFrameId (pipeline s))) by lia.
      * lia.
      * intros req cb Hcb. pose proof (Hsta _ _ Hcb) as Hge.
        destruct (fresh_started _ Hfresh _ _ Hcb) as (_ & _ & Hnone).
        assert (frameID cb ≠ outputFrameId (pipeline s)) by congruence. lia.
      * intros k r Hk. apply lookup_delete_Some in Hk as [Hne Hk].
        pose proof (Hres _ _ Hk). lia.
    + rewrite getResult_absent by done. by split.
Qed.

Lemma window_run tr : ∀ s,
  consistent (pipeline s) →
  inputFrameId (pipeline s) + Z.of_nat (submissions tr) ≤ INT64_MAX →
  fresh s → window s →
  window (run s tr).1.
Proof.
  induction tr as [|ev tr IH]; intros s Hs Hbudget Hfresh Hwin; [done|].
  rewrite run_cons. cbn [fst].
  pose proof (consistent_inputFrameId _ Hs) as [Hpos _].
  change (ev :: tr) with ([ev] ++ tr) in Hbudget.
  rewrite submissions_app in Hbudget.
  assert (Hb1 : inputFrameId (pipeline s) + Z.of_nat (submissions [ev]) ≤ INT64_MAX)
    by lia.
  pose proof (step_inputFrameId_bounds s ev Hpos Hb1) as [_ Hle].
  apply IH.
  - by apply consistent_step.
  - lia.
  - by apply fresh_step.
  - by apply window_step.
Qed.

Lemma window_init name maxAsyncRequests : window (Session_init name maxAsyncRequests).
Proof. split; cbn; [done|..]; intros *; by rewrite lookup_empty. Qed.

(** X7.  In a session with at most INT64_MAX calls of [submitRequest],
    retrieval never overtakes submission and nothing stale is kept:
    [outputFrameId] is at most [inputFrameId], and every result waiting
    in the buffer, like every callback still to run, belongs to a frame
    id from [outputFrameId] up to but not including [inputFrameId]. *)
Theorem held_frames_lie_between_the_counters name maxAsyncRequests tr :
  Z.of_nat (submissions tr) ≤ INT64_MAX →
  let s := (run (Session_init name maxAsyncRequests) tr).1 in
  outputFrameId (pipeline s) ≤ inputFrameId (pipeline s)
  ∧ (∀ k r, completedRequestResults (pipeline s) !! k = Some r →
            outputFrameId (pipeline s) ≤ k < inputFrameId (pipeline s))
  ∧ (∀ rq cb, started s !! rq = Some cb →
              outputFrameId (pipeline s) ≤ frameID cb < inputFrameId (pipeline s)).
Proof.
  intros Hbudget s. subst s.
  destruct (fresh_run tr (Session_init name maxAsyncRequests)
              (consistent_init _ _) Hbudget (fresh_init _ _)) as [Hfresh _].
  pose proof (window_run tr (Session_init name maxAsyncRequests)
                (consistent_init _ _) Hbudget (fresh_init _ _) (window_init _ _))
    as Hwin.
  split; [apply Hwin|]. split.
  - intros k r Hk. split; [by apply (window_results _ Hwin _ _ Hk)|].
    by apply (fresh_results _ Hfresh _ _ Hk).
  - intros rq cb Hcb. split; [by apply (window_started _ Hwin _ _ Hcb)|].
    by destruct (fresh_started _ Hfresh _ _ Hcb) as (_ & ? & _).
Qed.

Lemma held_frames_lie_between_the_counters_witness :
  let tr := [GetIdleRequest; SubmitRequest 0 10; GetIdleRequest; SubmitRequest 1 20;
             Completion 1 (inr (TBlob [1]))] in
  let s := (run (Session_init "out" 2) tr).1 in
  Z.of_nat (submissions tr) ≤ INT64_MAX
  ∧ completedRequestResults (pipeline s) !! 1 = Some (RequestResult.mk 1 (Some (TBlob [1])) 20)
  ∧ outputFrameId (pipeline s) ≤ 1 < inputFrameId (pipeline s).
Proof.
  cbv zeta.
  assert (Hbudget :
    Z.of_nat (submissions
      [GetIdleRequest; SubmitRequest 0 10; GetIdleRequest; SubmitRequest 1 20;
       Completion 1 (inr (TBlob [1]))]) ≤ INT64_MAX)
    by (cbn; unfold INT64_MAX; lia).
  split; [exact Hbudget|]. split; [reflexivity|].
  exact (proj1 (proj2 (held_frames_lie_between_the_counters "out" 2
           [GetIdleRequest; SubmitRequest 0 10; GetIdleRequest; SubmitRequest 1 20;
            Completion 1 (inr (TBlob [1]))] Hbudget))
           1 (RequestResult.mk 1 (Some (TBlob [1])) 20) eq_refl).
Defined.

(** ** A callback that succeeds *)

Lemma step_keeps_entry s ev k r :
  completedRequestResults (pipeline s) !! k = Some r →
  completedRequestResults (pipeline (step s ev).1) !! k = Some r
  ∨ ((∃ now, ev = GetResult now) ∧ outputFrameId (pipeline s) = k).
Proof.
  intros Hk. rewrite step_pipeline.
  destruct ev as [|rq now|rq extracted| |now]; auto.
  - left. destruct (decide (outputName (pipeline s) = EmptyString)) as [Hname|Hname].
    + by rewrite submitRequest_unconfigured.
    + by rewrite submitRequest_configured.
  - left. destruct (started s !! rq) as [cb|]; [|done].
    destruct extracted as [e|blob]; [by rewrite completionCallback_failed|].
    rewrite completionCallback_extracted. cbn. by rewrite emplace_lookup, Hk.
  - destruct (completedRequestResults (pipeline s) !! outputFrameId (pipeline s))
      as [retVal|] eqn:Hfind.
    + rewrite (getResult_present _ _ _ Hfind). cbn.
      destruct (decide (outputFrameId (pipeline s) = k)) as [Heq|Hne]; [eauto|].
      left. by rewrite lookup_delete_ne.
    + left. by rewrite getResult_absent.
Qed.

Lemma step_outputFrameId_grows s ev :
  consistent (pipeline s) → fresh s →
  outputFrameId (pipeline s) ≤ outputFrameId (pipeline (step s ev).1)
  ∧ (∀ now r, ev = GetResult now →
              completedRequestResults (pipeline s) !! outputFrameId (pipeline s)
              = Some r →
              outputFrameId (pipeline (step s ev).1) = outputFrameId (pipeline s) + 1).
Proof.
  intros Hs Hfresh.
  pose proof (consistent_inputFrameId _ Hs) as [_ Hmax].
  pose proof (consistent_outputFrameId _ Hs) as [Hopos _].
  destruct (Event_is_getResult ev) as [[now ->]|Hev].
  - rewrite step_pipeline.
    destruct (completedRequestResults (pipeline s) !! outputFrameId (pipeline s))
      as [retVal|] eqn:Hfind.
    + rewrite (getResult_present _ _ _ Hfind). cbn.
      pose proof (fresh_results _ Hfresh _ _ Hfind) as Hlt.
      rewrite (nextFrameId_below _ (inputFrameId (pipeline s))) by lia.
      split; [lia|done].
    + rewrite getResult_absent by done. cbn [snd]. split; [lia|].
      intros now' r _ Hr. congruence.
  - rewrite step_outputFrameId_other by done. split; [lia|].
    intros now r ->. by destruct (Hev now).
Qed.

Lemma run_outputFrameId_grows tr : ∀ s,
  consistent (pipeline s) →
  inputFrameId (pipeline s) + Z.of_nat (submissions tr) ≤ INT64_MAX →
  fresh s →
  outputFrameId (pipeline s) ≤ outputFrameId (pipeline (run s tr).1).
Proof.
  induction tr as [|ev tr IH]; intros s Hs Hbudget Hfresh; [done|].
  rewrite run_cons. cbn [fst].
  pose proof (consistent_inputFrameId _ Hs) as [Hpos _].
  change (ev :: tr) with ([ev] ++ tr) in Hbudget.
  rewrite submissions_app in Hbudget.
  assert (Hb1 : inputFrameId (pipeline s) + Z.of_nat (submissions [ev]) ≤ INT64_MAX)
    by lia.
  pose proof (step_inputFrameId_bounds s ev Hpos Hb1) as [_ Hle].
  destruct (step_outputFrameId_grows s ev Hs Hfresh) as [Hgrow _].
  etrans; [exact Hgrow|]. apply IH.
  - by apply consistent_step.
  - lia.
  - by apply fresh_step.
Qed.

(** A result stays in the buffer until [getResult] reaches its frame id. *)
Lemma deposited_stays tr : ∀ s k r,
  consistent (pipeline s) →
  inputFrameId (pipeline s) + Z.of_nat (submissions tr) ≤ INT64_MAX →
  fresh s →
  completedRequestResults (pipeline s) !! k = Some r →
  outputFrameId (pipeline (run s tr).1) ≤ k →
  completedRequestResults (pipeline (run s tr).1) !! k = Some r.
Proof.
  induction tr as [|ev tr IH]; intros s k r Hs Hbudget Hfresh Hk Hnot; [done|].
  rewrite run_cons in Hnot |- *. cbn [fst] in Hnot |- *.
  pose proof (consistent_inputFrameId _ Hs) as [Hpos _].
  change (ev :: tr) with ([ev] ++ tr) in Hbudget.
  rewrite submissions_app in Hbudget.
  assert (Hb1 : inputFrameId (pipeline s) + Z.of_nat (submissions [ev]) ≤ INT64_MAX)
    by lia.
  pose proof (step_inputFrameId_bounds s ev Hpos Hb1) as [_ Hle].
  pose proof (consistent_step s ev Hs) as Hs1.
  pose proof (fresh_step s ev Hpos Hb1 Hfresh) as Hfresh1.
  destruct (step_keeps_entry s ev k r Hk) as [Hkept|[[now ->] Hat]].
  - apply IH; [done|lia|done..].
  - exfalso. subst k.
    destruct (step_outputFrameId_grows s (GetResult now) Hs Hfresh) as [_ Hnext].
    specialize (Hnext now r eq_refl Hk).
    pose proof (run_outputFrameId_grows tr (step s (GetResult now)).1 Hs1
                  ltac:(lia) Hfresh1). lia.
Qed.

(** X8.  In a session with at most INT64_MAX calls of [submitRequest],
    the callback of a started request that copies its output without a
    fault always deposits: afterwards the buffer holds, under the
    callback's frame id, the result made of that frame id, the copied
    blob and the start time of the submission; the other entries are
    untouched, the request is Idle in the pool and no exception has been
    stored by it.  [outputFrameId] has not passed that frame id; whatever
    happens next, the result stays in the buffer for as long as
    [outputFrameId] has not passed it, and the [getResult] that is made
    when [outputFrameId] is that frame id returns exactly this result,
    however many other callbacks and retrievals came in between. *)
Theorem successful_callback_deposits name maxAsyncRequests pre rq cb blob post :
  let s := (run (Session_init name maxAsyncRequests) pre).1 in
  let s1 := (step s (Completion rq (inr blob))).1 in
  let s2 := (run s1 post).1 in
  let result := RequestResult.mk (frameID cb) (Some blob) (frameStartTime cb) in
  Z.of_nat (submissions (pre ++ post)) ≤ INT64_MAX →
  started s !! rq = Some cb →
  completedRequestResults (pipeline s1) !! frameID cb = Some result
  ∧ (∀ k, k ≠ frameID cb →
          completedRequestResults (pipeline s1) !! k
          = completedRequestResults (pipeline s) !! k)
  ∧ (rq < length (requestsPool (pipeline s)) →
     requestsPool (pipeline s1) !! rq = Some Idle)%nat
  ∧ callbackException (pipeline s1) = callbackException (pipeline s)
  ∧ started s1 !! rq = None
  ∧ outputFrameId (pipeline s1) ≤ frameID cb
  ∧ (outputFrameId (pipeline s2) ≤ frameID cb →
     completedRequestResults (pipeline s2) !! frameID cb = Some result)
  ∧ (∀ now, outputFrameId (pipeline s2) = frameID cb →
            (getResult (pipeline s2) now).1 = result
            ∧ outputFrameId (getResult (pipeline s2) now).2 = frameID cb + 1).
Proof.
  intros s s1 s2 result Hbudget Hcb.
  rewrite submissions_app in Hbudget.
  assert (Hpre : Z.of_nat (submissions pre) ≤ INT64_MAX) by lia.
  destruct (fresh_run pre (Session_init name maxAsyncRequests)
              (consistent_init _ _) Hpre (fresh_init _ _)) as [Hfresh Hle].
  pose proof (window_run pre (Session_init name maxAsyncRequests)
                (consistent_init _ _) Hpre (fresh_init _ _) (window_init _ _))
    as Hwin.
  fold s in Hfresh, Hle, Hwin.
  cbn [Session_init pipeline PipelineBase_init inputFrameId] in Hle.
  assert (Hs : consistent (pipeline s))
    by apply consistent_reachable, reachable_run, reachable_init.
  pose proof (consistent_inputFrameId _ Hs) as [Hpos _].
  destruct (fresh_started _ Hfresh _ _ Hcb) as (Hrq & Hlt & Hnone).
  assert (Hs1 : s1 = mkSession (completionCallback cb (inr blob) (pipeline s))
                       (delete rq (started s))).
  { subst s1. cbn. by rewrite Hcb. }
  assert (Hdep : completedRequestResults (pipeline s1) !! frameID cb = Some result).
  { rewrite Hs1, completionCallback_extracted. cbn.
    rewrite emplace_lookup, Hnone. by rewrite decide_True. }
  assert (Hin1 : inputFrameId (pipeline s1) = inputFrameId (pipeline s)).
  { by rewrite Hs1, completionCallback_extracted. }
  assert (Hout1 : outputFrameId (pipeline s1) = outputFrameId (pipeline s)).
  { by rewrite Hs1, completionCallback_extracted. }
  assert (Hcons1 : consistent (pipeline s1)) by apply consistent_step, Hs.
  assert (Hfresh1 : fresh s1).
  { apply fresh_step; [done| |done]. cbn. lia. }
  assert (Hstays : outputFrameId (pipeline s2) ≤ frameID cb →
                   completedRequestResults (pipeline s2) !! frameID cb = Some result).
  { apply deposited_stays; [done| |done..]. rewrite Hin1. lia. }
  split; [exact Hdep|]. split; [|split; [|split; [|split; [|split; [|split]]]]].
  - intros k Hk. rewrite Hs1, completionCallback_extracted. cbn.
    rewrite emplace_lookup.
    destruct (completedRequestResults (pipeline s) !! k); [done|].
    by rewrite decide_False.
  - intros Hin. rewrite Hs1, completionCallback_extracted. cbn.
    unfold RequestsPool.setRequestIdle. rewrite Hrq.
    by apply list_lookup_insert_eq.
  - by rewrite Hs1, completionCallback_extracted.
  - rewrite Hs1. cbn. apply lookup_delete_eq.
  - rewrite Hout1. by apply (window_started _ Hwin _ _ Hcb).
  - exact Hstays.
  - intros now Hat.
    assert (Hthere : completedRequestResults (pipeline s2) !! outputFrameId (pipeline s2)
                     = Some result) by (rewrite Hat; apply Hstays; lia).
    rewrite (getResult_present _ _ _ Hthere). cbn. split; [done|].
    rewrite Hat. apply (nextFrameId_below _ (inputFrameId (pipeline s))); [|done|].
    + pose proof (window_started _ Hwin _ _ Hcb).
      pose proof (consistent_outputFrameId _ Hs). lia.
    + apply Hs.
Qed.

Lemma successful_callback_deposits_witness :
  let pre := [GetIdleRequest; SubmitRequest 0 10; GetIdleRequest; SubmitRequest 1 20] in
  let post := [GetResult 25; Completion 0 (inr (TBlob [7])); GetResult 30] in
  let s := (run (Session_init "out" 2) pre).1 in
  let s1 := (step s (Completion 1 (inr (TBlob [4; 2])))).1 in
  let s2 := (run s1 post).1 in
  Z.of_nat (submissions (pre ++ post)) ≤ INT64_MAX
  ∧ started s !! 1%nat = Some (mkCallback 20 1 1)
  ∧ outputFrameId (pipeline s1) = 0
  ∧ outputFrameId (pipeline s2) = 1
  ∧ (getResult (pipeline s2) 40).1 = RequestResult.mk 1 (Some (TBlob [4; 2])) 20.
Proof.
  cbv zeta.
  assert (Hbudget :
    Z.of_nat (submissions
      ([GetIdleRequest; SubmitRequest 0 10; GetIdleRequest; SubmitRequest 1 20]
       ++ [GetResult 25; Completion 0 (inr (TBlob [7])); GetResult 30]))
    ≤ INT64_MAX) by (cbn; unfold INT64_MAX; lia).
  assert (Hcb : started (run (Session_init "out" 2)
                  [GetIdleRequest; SubmitRequest 0 10; GetIdleRequest;
                   SubmitRequest 1 20]).1 !! 1%nat
                = Some (mkCallback 20 1 1)) by reflexivity.
  destruct (successful_callback_deposits "out" 2
              [GetIdleRequest; SubmitRequest 0 10; GetIdleRequest; SubmitRequest 1 20]
              1%nat (mkCallback 20 1 1) (TBlob [4; 2])
              [GetResult 25; Completion 0 (inr (TBlob [7])); GetResult 30]
              Hbudget Hcb) as (_ & _ & _ & _ & _ & _ & _ & Hget).
  split; [exact Hbudget|]. split; [exact Hcb|]. split; [reflexivity|].
  split; [reflexivity|]. exact (proj1 (Hget 40 eq_refl)).
Defined.

(** ** Latencies under a steady clock *)

Lemma notAhead_later c c' s : c ≤ c' → notAhead c s → notAhead c' s.
Proof.
  intros Hle [Hsta Hres]. split.
  - intros rq cb Hcb. pose proof (Hsta _ _ Hcb). lia.
  - intros k r Hk. pose proof (Hres _ _ Hk). lia.
Qed.

Lemma notAhead_step c s ev :
  (∀ now, reading ev = Some now → c ≤ now) →
  notAhead c s → notAhead (default c (reading ev)) (step s ev).1.
Proof.
  intros Hev Hna.
  assert (Hle : c ≤ default c (reading ev)).
  { destruct (reading ev) as [now|] eqn:Hr; cbn; [by apply Hev|lia]. }
  apply (notAhead_later _ _ _ Hle) in Hna. clear Hle Hev.
  destruct Hna as [Hsta Hres].
  destruct ev as [|rq now|rq extracted| |now]; cbn in *.
  - destruct (RequestsPool.getIdleRequest _). by split.
  - destruct (decide (outputName (pipeline s) = EmptyString)) as [Hname|Hname].
    + rewrite submitRequest_unconfigured by done. by split.
    + rewrite submitRequest_configured by done. split; cbn; [|done].
      intros req cb Hcb. apply lookup_insert_Some in Hcb as [[<- <-]|[_ Hcb]]; cbn.
      * lia.
      * by apply (Hsta _ _ Hcb).
  - destruct (started s !! rq) as [cb0|] eqn:Hcb0; [|by split].
    assert (Hothers : ∀ req cb, delete rq (started s) !! req = Some cb →
                                frameStartTime cb ≤ c).
    { intros req cb Hcb. apply lookup_delete_Some in Hcb as [_ Hcb].
      by apply (Hsta _ _ Hcb). }
    destruct extracted as [e|blob].
    + rewrite completionCallback_failed. by split.
    + rewrite completionCallback_extracted. split; cbn; [done|].
      intros k r. rewrite emplace_lookup.
      destruct (completedRequestResults (pipeline s) !! k) as [old|] eqn:Hk.
      * intros [= <-]. by apply (Hres _ _ Hk).
      * case_decide; [|done]. intros [= <-]. cbn. by apply (Hsta _ _ Hcb0).
  - by split.
  - destruct (completedRequestResults (pipeline s) !! outputFrameId (pipeline s))
      as [retVal|] eqn:Hfind.
    + rewrite (getResult_present _ _ _ Hfind). split; cbn; [done|].
      intros k r Hk. apply lookup_delete_Some in Hk as [_ Hk]. by apply (Hres _ _ Hk).
    + rewrite getResult_absent by done. by split.
Qed.

Lemma steadyFrom_cons c ev tr :
  steadyFrom c (ev :: tr) →
  (∀ now, reading ev = Some now → c ≤ now)
  ∧ steadyFrom (default c (reading ev)) tr.
Proof.
  cbn. destruct (reading ev) as [now|]; cbn.
  - intros [Hle Hrest]. split; [|done]. by intros ? [= <-].
  - intros Hrest. by split.
Qed.

Lemma steady_latencies tr : ∀ c s,
  consistent (pipeline s) →
  notAhead c s →
  steadyFrom c tr →
  Forall (λ x, 0 ≤ latency x) (retrievals tr (run s tr).2).
Proof.
  induction tr as [|ev tr IH]; intros c s Hs Hna Hsteady; [by constructor|].
  apply steadyFrom_cons in Hsteady as [Hev Hrest].
  rewrite retrievals_run_cons. apply Forall_app. split.
  - destruct (Event_is_getResult ev) as [[now ->]|Hne].
    + rewrite retrievalOf_getResult by done.
      destruct (completedRequestResults (pipeline s) !! outputFrameId (pipeline s))
        as [retVal|] eqn:Hfind; [|by constructor].
      apply Forall_singleton. unfold latency. cbn.
      pose proof (notAhead_results _ _ Hna _ _ Hfind).
      pose proof (Hev now eq_refl). lia.
    + rewrite retrievalOf_other by done. by constructor.
  - apply (IH (default c (reading ev))).
    + by apply consistent_step.
    + by apply notAhead_step.
    + done.
Qed.

Lemma total_nonnegative l : Forall (λ x, 0 ≤ x) l → 0 ≤ total l.
Proof.
  unfold total. induction 1 as [|x l Hx _ IH]; cbn; lia.
Qed.

(** X9.  When the clock readings of a session never go back, as those
    of [steady_clock] do not, every non-empty result is retrieved at a
    reading that is not before its start time: each latency that
    [getResult] adds is non-negative, and so is [perfInfo.latencySum]. *)
Theorem latencies_are_not_negative name maxAsyncRequests c tr :
  steadyFrom c tr →
  let s' := (run (Session_init name maxAsyncRequests) tr).1 in
  let os := (run (Session_init name maxAsyncRequests) tr).2 in
  Forall (λ x, RequestResult.startTime x.2 ≤ x.1) (retrievals tr os)
  ∧ 0 ≤ PerformanceInfo.latencySum (perfInfo (pipeline s')).
Proof.
  intros Hsteady s' os. subst s' os.
  pose proof (consistent_init name maxAsyncRequests) as Hs.
  change (PipelineBase_init name maxAsyncRequests)
    with (pipeline (Session_init name maxAsyncRequests)) in Hs.
  assert (Hna : notAhead c (Session_init name maxAsyncRequests)).
  { split; cbn; intros *; by rewrite lookup_empty. }
  pose proof (steady_latencies tr c _ Hs Hna Hsteady) as Hlat.
  split.
  - eapply Forall_impl; [exact Hlat|]. intros x Hx. unfold latency in Hx. lia.
  - destruct (run_counters tr _ Hs) as [_ Hsum]. rewrite Hsum. cbn.
    apply total_nonnegative. by apply Forall_fmap.
Qed.

Lemma latencies_are_not_negative_witness :
  steadyFrom 0 outOfOrder
  ∧ 0 ≤ PerformanceInfo.latencySum
          (perfInfo (pipeline (run (Session_init "out" 2) outOfOrder).1)).
Proof.
  assert (Hsteady : steadyFrom 0 outOfOrder) by (cbn; lia).
  split; [exact Hsteady|].
  exact (proj2 (latencies_are_not_negative "out" 2 0 outOfOrder Hsteady)).
Defined.

(** ** The divisor of the throughput *)

(** X10.  [getResult] divides by the whole milliseconds since the
    session start time.  When it retrieves a result less than one
    millisecond (10^6 ticks) after that time, the divisor is zero: the
    throughput is then the quotient of a positive frame count by zero. *)
Theorem throughput_divisor_zero_in_first_millisecond p now retVal :
  completedRequestResults p !! outputFrameId p = Some retVal →
  0 ≤ now - PerformanceInfo.startTime (perfInfo p) < 1000000 →
  PerformanceInfo.FPS (perfInfo (getResult p now).2)
  = FpsQuotient ((PerformanceInfo.framesCount (perfInfo p) + 1) * 1000) 0.
Proof.
  intros Hfind Hshort. rewrite (getResult_present _ _ _ Hfind). cbn.
  f_equal. unfold duration_cast_milliseconds. by apply Z.quot_small.
Qed.

Lemma throughput_divisor_zero_in_first_millisecond_witness :
  let p := pipeline (run (Session_init "out" 1)
                       [GetIdleRequest; SubmitRequest 0 5000;
                        Completion 0 (inr (TBlob [1]))]).1 in
  completedRequestResults p !! outputFrameId p
    = Some (RequestResult.mk 0 (Some (TBlob [1])) 5000)
  ∧ 0 ≤ 905000 - PerformanceInfo.startTime (perfInfo p) < 1000000
  ∧ PerformanceInfo.FPS (perfInfo (getResult p 905000).2) = FpsQuotient 1000 0.
Proof.
  cbv zeta.
  assert (Hshort :
    0 ≤ 905000 - PerformanceInfo.startTime
                   (perfInfo (pipeline (run (Session_init "out" 1)
                       [GetIdleRequest; SubmitRequest 0 5000;
                        Completion 0 (inr (TBlob [1]))]).1)) < 1000000)
    by (change (0 ≤ 905000 - 5000 < 1000000); lia).
  split; [reflexivity|]. split; [exact Hshort|].
  rewrite (throughput_divisor_zero_in_first_millisecond
             (pipeline (run (Session_init "out" 1)
                          [GetIdleRequest; SubmitRequest 0 5000;
                           Completion 0 (inr (TBlob [1]))]).1)
             905000 (RequestResult.mk 0 (Some (TBlob [1])) 5000) eq_refl Hshort).
  reflexivity.
Defined.

(** ** Draining the buffer *)

(** X11.  Results that are there are drained by as many [getResult]
    calls.  When the buffer holds a result for each of the next n frame
    ids from [outputFrameId] on (n calls not taking the counter past
    INT64_MAX), then n [getResult] calls in a row return exactly these
    results, in the order of their frame ids; afterwards [outputFrameId]
    is n further, these n entries are gone and every other entry of the
    buffer is as it was. *)
Theorem getResult_drains nows : ∀ s,
  0 ≤ outputFrameId (pipeline s) →
  outputFrameId (pipeline s) + Z.of_nat (length nows) ≤ INT64_MAX →
  (∀ i, (i < length nows)%nat →
        is_Some (completedRequestResults (pipeline s)
                   !! (outputFrameId (pipeline s) + Z.of_nat i))) →
  (∀ i, (i < length nows)%nat →
        (run s (GetResult <$> nows)).2 !! i
        = Result <$> completedRequestResults (pipeline s)
                       !! (outputFrameId (pipeline s) + Z.of_nat i))
  ∧ outputFrameId (pipeline (run s (GetResult <$> nows)).1)
    = outputFrameId (pipeline s) + Z.of_nat (length nows)
  ∧ (∀ k, completedRequestResults (pipeline (run s (GetResult <$> nows)).1) !! k
          = if decide (outputFrameId (pipeline s) ≤ k
                       < outputFrameId (pipeline s) + Z.of_nat (length nows))
            then None
            else completedRequestResults (pipeline s) !! k).
Proof.
  induction nows as [|now nows IH]; intros s Hpos Hmax Hall.
  - cbn. split; [intros i Hi; lia|]. split; [lia|].
    intros k. by rewrite decide_False by lia.
  - cbn [length] in *. rewrite fmap_cons, run_cons. cbn [fst snd].
    destruct (Hall 0%nat ltac:(lia)) as [retVal Hfind].
    change (Z.of_nat 0) with 0 in Hfind. rewrite Z.add_0_r in Hfind.
    assert (Hstep : step s (GetResult now)
                    = (mkSession (afterRetrieval (pipeline s) retVal now) (started s),
                       Result retVal)).
    { cbn. by rewrite (getResult_present _ _ _ Hfind). }
    rewrite Hstep. cbn [fst snd].
    set (s1 := mkSession (afterRetrieval (pipeline s) retVal now) (started s)).
    assert (Hout1 : outputFrameId (pipeline s1) = outputFrameId (pipeline s) + 1).
    { cbn. apply (nextFrameId_below _ INT64_MAX); lia. }
    assert (Hbuf1 : ∀ k, completedRequestResults (pipeline s1) !! k
                         = if decide (k = outputFrameId (pipeline s)) then None
                           else completedRequestResults (pipeline s) !! k).
    { intros k. cbn. rewrite lookup_delete. by repeat case_decide. }
    destruct (IH s1) as (IHobs & IHout & IHbuf).
    + lia.
    + lia.
    + intros i Hi. rewrite Hout1, Hbuf1, decide_False by lia.
      replace (outputFrameId (pipeline s) + 1 + Z.of_nat i)
        with (outputFrameId (pipeline s) + Z.of_nat (S i)) by lia.
      apply Hall. lia.
    + split; [|split].
      * intros [|i] Hi.
        -- cbn. change (Z.of_nat 0) with 0. by rewrite Z.add_0_r, Hfind.
        -- rewrite lookup_cons, IHobs by lia.
           rewrite Hout1, Hbuf1, decide_False by lia.
           do 2 f_equal. lia.
      * rewrite IHout, Hout1. lia.
      * intros k. rewrite IHbuf, Hout1, Hbuf1.
        repeat case_decide; try done; lia.
Qed.

Lemma getResult_drains_witness :
  let s := (run (Session_init "out" 2)
              [GetIdleRequest; SubmitRequest 0 10; GetIdleRequest;
               SubmitRequest 1 20; Completion 1 (inr (TBlob [1]));
               Completion 0 (inr (TBlob [0]))]).1 in
  0 ≤ outputFrameId (pipeline s)
  ∧ outputFrameId (pipeline s) + Z.of_nat (length [30; 40]) ≤ INT64_MAX
  ∧ (∀ i, (i < length [30; 40])%nat →
          is_Some (completedRequestResults (pipeline s)
                     !! (outputFrameId (pipeline s) + Z.of_nat i)))
  ∧ outputFrameId (pipeline (run s (GetResult <$> [30; 40])).1) = 0 + 2.
Proof.
  cbv zeta.
  set (s := (run (Session_init "out" 2)
              [GetIdleRequest; SubmitRequest 0 10; GetIdleRequest;
               SubmitRequest 1 20; Completion 1 (inr (TBlob [1]));
               Completion 0 (inr (TBlob [0]))]).1).
  assert (Hpos : 0 ≤ outputFrameId (pipeline s)) by (change (0 ≤ 0); lia).
  assert (Hmax : outputFrameId (pipeline s) + Z.of_nat (length [30; 40]) ≤ INT64_MAX)
    by (change (0 + 2 ≤ INT64_MAX); unfold INT64_MAX; lia).
  assert (Hall : ∀ i, (i < length [30; 40])%nat →
                      is_Some (completedRequestResults (pipeline s)
                                 !! (outputFrameId (pipeline s) + Z.of_nat i))).
  { intros [|[|i]] Hi; [by eexists|by eexists|cbn in Hi; lia]. }
  split; [exact Hpos|]. split; [exact Hmax|]. split; [exact Hall|].
  exact (proj1 (proj2 (getResult_drains [30; 40] s Hpos Hmax Hall))).
Defined.
